(** * generate_deals.py: the row-to-listing pipeline

    A shallow embedding of [generate_deals.py] and the properties of its
    normaliser, its listing generator and its batch driver.

    Python's [str] is a sequence of Unicode code points; the pandas frame is
    a list of named columns; the collaborators the script talks to (the
    Unicode character database behind [str.title], [pandas.read_csv], the
    chat-completion endpoint and [json.loads]) are fields of a [World]
    record, so that every statement below holds for whatever they answer. *)

From Stdlib Require Import String Ascii NArith Bool Arith Lia List.
Import ListNotations.

Set Implicit Arguments.

(** ** Python strings *)

Module PyStr.

(** A character is a Unicode code point. *)
Definition char := N.
Definition str := list char.

(** The code points of an ASCII literal. *)
Definition py (s : string) : str :=
  map N_of_ascii (list_ascii_of_string s).

Definition str_eq_dec : forall a b : str, {a = b} + {a <> b} :=
  list_eq_dec N.eq_dec.

Definition str_eqb (a b : str) : bool :=
  if str_eq_dec a b then true else false.

(** [str.isspace] on one character, which is also the class [\s] of [re]
    on [str] patterns: the code points whose bidirectional type is WS, B
    or S, or whose category is Zs. *)
Definition isspace (c : char) : bool :=
  ((9 <=? c) && (c <=? 13) || (28 <=? c) && (c <=? 32)
   || (c =? 133) || (c =? 160) || (c =? 5760)
   || (8192 <=? c) && (c <=? 8202)
   || (c =? 8232) || (c =? 8233) || (c =? 8239) || (c =? 8287)
   || (c =? 12288))%N.

Definition space : char := 32%N.

(** [str.lstrip()], [str.rstrip()], [str.strip()] with no argument. *)
Fixpoint lstrip (s : str) : str :=
  match s with
  | [] => []
  | c :: t => if isspace c then lstrip t else s
  end.

Definition rstrip (s : str) : str := rev (lstrip (rev s)).

Definition strip (s : str) : str := rstrip (lstrip s).

(** [re.sub(r"\s+", " ", s)]: the scanner emits one space when it enters
    a run of whitespace and nothing for the rest of the run. *)
Fixpoint sub_ws (in_run : bool) (s : str) : str :=
  match s with
  | [] => []
  | c :: t =>
      if isspace c
      then (if in_run then sub_ws true t else space :: sub_ws true t)
      else c :: sub_ws false t
  end.

Definition replace_ws (s : str) : str := sub_ws false s.

(** The part of the Unicode character database [str.title] reads:
    [_PyUnicode_IsCased], [_PyUnicode_IsUppercase], [_PyUnicode_ToTitleFull]
    and [lower_ucs4], whose answer for a capital sigma depends on the
    whole string and the position. *)
Record UnicodeCase := {
  is_cased : char -> bool;
  is_upper : char -> bool;
  to_title : char -> list char;
  to_lower : str -> nat -> char -> list char
}.

(** CPython's [do_title]: a character that follows a cased one is
    lower-cased, any other is title-cased. *)
Fixpoint do_title (U : UnicodeCase) (data : str) (i : nat)
         (previous_is_cased : bool) (rest : str) : str :=
  match rest with
  | [] => []
  | c :: rest' =>
      (if previous_is_cased then to_lower U data i c else to_title U c)
        ++ do_title U data (S i) (is_cased U c) rest'
  end.

Definition title (U : UnicodeCase) (s : str) : str :=
  do_title U s 0 false s.

(** The database restricted to ASCII; every other code point is left
    alone.  It stands in for the real tables on ASCII text. *)
Definition ascii_is_upper (c : char) : bool := ((65 <=? c) && (c <=? 90))%N.
Definition ascii_is_lower (c : char) : bool := ((97 <=? c) && (c <=? 122))%N.
Definition ascii_upper (c : char) : char :=
  if ascii_is_lower c then (c - 32)%N else c.
Definition ascii_lower (c : char) : char :=
  if ascii_is_upper c then (c + 32)%N else c.

Definition ascii_case : UnicodeCase := {|
  is_cased c := ascii_is_upper c || ascii_is_lower c;
  is_upper := ascii_is_upper;
  to_title c := [ascii_upper c];
  to_lower _ _ c := [ascii_lower c]
|}.

(** A database is exact on ASCII when it answers there as [ascii_case]. *)
Definition ascii_exact (U : UnicodeCase) : Prop :=
  forall c, (c < 128)%N ->
    is_cased U c = is_cased ascii_case c
    /\ is_upper U c = is_upper ascii_case c
    /\ to_title U c = to_title ascii_case c
    /\ forall data i, to_lower U data i c = to_lower ascii_case data i c.

Definition is_ascii (s : str) : Prop := Forall (fun c => (c < 128)%N) s.

End PyStr.
Import PyStr.

(** ** Text normaliser (lines 71 and 72, on one cell) *)

(** [.str.strip().str.title()] *)
Definition clean_title (U : UnicodeCase) (raw : str) : str :=
  title U (strip raw).

(** [.str.replace(r"\s+", " ", regex=True).str.strip()] *)
Definition clean_desc (raw : str) : str :=
  strip (replace_ws raw).

(** ** Values, rows and frames *)

(** What a cell of a frame or a member of a parsed reply holds: a string,
    the missing-value marker, or any other object, known by its [str()].
    (pandas may re-type a column of non-string objects; nothing below
    depends on what it shows for them.) *)
Inductive cell :=
| Str (s : str)
| NaN
| Obj (repr : str).

(** [str(v)], which is also what an f-string and [astype(str)] produce. *)
Definition py_str (v : cell) : str :=
  match v with
  | Str s => s
  | NaN => py "nan"
  | Obj r => r
  end.

(** Lookup in a list of named things: the first binding of the name. *)
Fixpoint lookup {A : Type} (k : str) (l : list (str * A)) : option A :=
  match l with
  | [] => None
  | (k', v) :: t => if str_eqb k k' then Some v else lookup k t
  end.

(** A dict with string keys, in insertion order. *)
Definition dict := list (str * cell).

(** What [json.loads] returns: a dict for a JSON object, something else
    for any other document. *)
Inductive pyvalue :=
| Dict (d : dict)
| NotDict.

(** A row handed to the applied function: a Series indexed by the column
    names. *)
Definition row := list (str * cell).

(** A frame: its index [0 .. nrows-1] and its named columns, in order. *)
Record frame := {
  nrows : nat;
  cols : list (str * list cell)
}.

Definition columns (df : frame) : list str := map fst (cols df).

Definition row_at (df : frame) (i : nat) : row :=
  map (fun kc => (fst kc, nth i (snd kc) NaN)) (cols df).

Definition rows (df : frame) : list row :=
  map (row_at df) (seq 0 (nrows df)).

(** Every column covers the index, and no name occurs twice. *)
Definition wf_frame (df : frame) : Prop :=
  Forall (fun kc => length (snd kc) = nrows df) (cols df)
  /\ NoDup (columns df).

(** ** Outcomes and effects *)

(** The exceptions that leave the script. *)
Inductive exn :=
| KeyError (key : str)
| SystemExit (msg : str)
| Error (msg : str).

(** The outcome of a call that may raise an [Exception], kept by the
    text of the exception. *)
Inductive attempt (A : Type) :=
| Returns (a : A)
| Fails (msg : str).
Arguments Fails {A} msg.

Definition attempt_bind {A B : Type} (m : attempt A) (k : A -> attempt B)
  : attempt B :=
  match m with
  | Returns a => k a
  | Fails msg => Fails msg
  end.

(** What the process does to the outside, in the order it does it. *)
Inductive event :=
| EvReadCsv (path : str)
| EvChat (prompt : str)
| EvWriteCsv (path : str) (df : frame)
| EvPrint (line : str).

Definition log := list event.

Definition is_chat (e : event) : bool :=
  match e with EvChat _ => true | _ => false end.

(** The number of remote calls made so far. *)
Definition calls (st : log) : nat := length (filter is_chat st).

(** The frame last written to a file, if any. *)
Fixpoint written (st : log) : option frame :=
  match st with
  | [] => None
  | e :: t =>
      match written t with
      | Some df => Some df
      | None => match e with EvWriteCsv _ df => Some df | _ => None end
      end
  end.

(** A step of the script ends normally, or with an exception, or leaves
    the part of pandas this development describes ([Unmodelled]: a reply
    that parses to something other than a JSON object sends
    [DataFrame.apply] down other paths). *)
Inductive result (A : Type) :=
| Ok (a : A)
| Raise (e : exn)
| Unmodelled.
Arguments Raise {A} e.
Arguments Unmodelled {A}.

Definition M (A : Type) : Type := log -> result A * log.

Definition ret {A : Type} (a : A) : M A := fun st => (Ok a, st).

Definition raise {A : Type} (e : exn) : M A := fun st => (Raise e, st).

Definition unmodelled {A : Type} : M A := fun st => (Unmodelled, st).

Definition bind {A B : Type} (m : M A) (k : A -> M B) : M B :=
  fun st =>
    match m st with
    | (Ok a, st') => k a st'
    | (Raise e, st') => (Raise e, st')
    | (Unmodelled, st') => (Unmodelled, st')
    end.

Definition emit (e : event) : M unit := fun st => (Ok tt, st ++ [e]).

Declare Scope py_scope.
Delimit Scope py_scope with py_m.
Notation "x <- m ;; k" := (bind m (fun x => k))
  (at level 61, m at next level, right associativity) : py_scope.
Notation "m ;;; k" := (bind m (fun _ => k))
  (at level 61, right associativity) : py_scope.
Open Scope py_scope.

Fixpoint mapM {A B : Type} (f : A -> M B) (l : list A) : M (list B) :=
  match l with
  | [] => ret []
  | a :: t => b <- f a ;; bs <- mapM f t ;; ret (b :: bs)
  end.

(** The exit status of the interpreter: 0 on a normal end, 1 when an
    exception or [SystemExit] with a message reaches the top. *)
Definition exit_status {A : Type} (r : result A) : option nat :=
  match r with
  | Ok _ => Some 0
  | Raise _ => Some 1
  | Unmodelled => None
  end.

(** ** The collaborators *)

Record World := {
  (** the Unicode tables of the interpreter *)
  unicode : UnicodeCase;
  (** [pd.read_csv(path)] *)
  csv_at : str -> attempt frame;
  (** the text [response.choices[0].message.content] of the n-th call of
      [openai.ChatCompletion.create] made with this key and prompt, or the
      exception the call or the access raises *)
  openai_reply : str -> nat -> str -> attempt str;
  (** [json.loads] *)
  json_loads : str -> attempt pyvalue
}.

(** ** pandas operations the script uses *)

Definition read_csv (W : World) (path : str) : M frame :=
  emit (EvReadCsv path) ;;;
  match csv_at W path with
  | Returns df => ret df
  | Fails msg => raise (Error msg)
  end.

Definition to_csv (df : frame) (path : str) : M unit :=
  emit (EvWriteCsv path df).

Definition print (line : str) : M unit := emit (EvPrint line).

(** [df[k]] *)
Definition getitem (df : frame) (k : str) : M (list cell) :=
  match lookup k (cols df) with
  | Some c => ret c
  | None => raise (KeyError k)
  end.

(** [row[k]] *)
Definition row_getitem (r : row) (k : str) : M cell :=
  match lookup k r with
  | Some v => ret v
  | None => raise (KeyError k)
  end.

(** A Series assigned to a frame is aligned on the frame's index. *)
Definition reindex (n : nat) (col : list cell) : list cell :=
  firstn n col ++ repeat NaN (n - length col).

Fixpoint assign (k : str) (col : list cell) (cs : list (str * list cell))
  : list (str * list cell) :=
  match cs with
  | [] => [(k, col)]
  | (k', c') :: t =>
      if str_eqb k k' then (k, col) :: t else (k', c') :: assign k col t
  end.

(** [df[k] = col]: the column of that name is replaced where it stands,
    a new name is added at the end. *)
Definition setitem (df : frame) (k : str) (col : list cell) : frame :=
  {| nrows := nrows df; cols := assign k (reindex (nrows df) col) (cols df) |}.

Fixpoint as_dicts (vs : list pyvalue) : option (list dict) :=
  match vs with
  | [] => Some []
  | Dict d :: t =>
      match as_dicts t with
      | Some ds => Some (d :: ds)
      | None => None
      end
  | NotDict :: _ => None
  end.

Definition add_key (acc : list str) (k : str) : list str :=
  if in_dec str_eq_dec k acc then acc else acc ++ [k].

(** The keys of the dicts, each once, in the order they first appear. *)
Definition keys_of (ds : list dict) : list str :=
  fold_left add_key (flat_map (map fst) ds) [].

Definition dict_column (k : str) (ds : list dict) : list cell :=
  map (fun d => match lookup k d with Some v => v | None => NaN end) ds.

(** [DataFrame(results).T]: one row per dict, one column per key, [NaN]
    where a dict has no such key. *)
Definition frame_of_dicts (ds : list dict) : frame :=
  {| nrows := length ds;
     cols := map (fun k => (k, dict_column k ds)) (keys_of ds) |}.

(** [df.apply(f, axis=1, result_type="expand")].  When an axis is empty,
    pandas does not call [f] and returns a copy of the frame; otherwise it
    calls [f] on each row in order and expands the dicts it returned. *)
Definition apply_expand (f : row -> M pyvalue) (df : frame) : M frame :=
  if (nrows df =? 0) || (length (cols df) =? 0)
  then ret df
  else
    vs <- mapM f (rows df) ;;
    match as_dicts vs with
    | Some ds => ret (frame_of_dicts ds)
    | None => unmodelled
    end.

(** ** The script *)

Definition nl : str := [10%N].

Definition build_prompt (title description : str) : str :=
  nl
  ++ py "You are helping prepare deal listings. Rewrite the following info" ++ nl
  ++ py "into a catchy product title, a short HTML-formatted description (with" ++ nl
  ++ py "<h2>, <ul>, <li>, and a few emojis if appropriate), and a 1"
  ++ [226%N; 8364%N; 8220%N] ++ py "2 sentence SEO description." ++ nl
  ++ nl
  ++ py "Deal Title: " ++ title ++ nl
  ++ py "Deal Description: " ++ description ++ nl
  ++ nl
  ++ py "Respond in JSON with keys: title, html_description, seo_description." ++ nl.

Definition ChatCompletion_create (W : World) (api_key prompt : str)
  : M (attempt str) :=
  fun st => (Ok (openai_reply W api_key (calls st) prompt), st ++ [EvChat prompt]).

(** The dict of the [except] branch. *)
Definition fallback (t d : cell) (exc : str) : dict :=
  [ (py "title", t);
    (py "html_description", d);
    (py "seo_description", Str []);
    (py "error", Str exc) ].

Definition generate_listing (W : World) (api_key : str) (r : row) : M pyvalue :=
  t <- row_getitem r (py "clean_title") ;;
  d <- row_getitem r (py "clean_desc") ;;
  let prompt := build_prompt (py_str t) (py_str d) in
  response <- ChatCompletion_create W api_key prompt ;;
  match attempt_bind response (fun content => json_loads W (strip content)) with
  | Returns v => ret v
  | Fails exc => ret (Dict (fallback t d exc))
  end.

Definition main (W : World) (input_csv output_csv api_key : str) : M unit :=
  df <- read_csv W input_csv ;;
  raw_title <- getitem df (py "RawTitle") ;;
  let df := setitem df (py "clean_title")
              (map (fun v => Str (clean_title (unicode W) (py_str v))) raw_title) in
  raw_desc <- getitem df (py "RawDescription") ;;
  let df := setitem df (py "clean_desc")
              (map (fun v => Str (clean_desc (py_str v))) raw_desc) in
  results <- apply_expand (generate_listing W api_key) df ;;
  c <- getitem results (py "title") ;;
  let df := setitem df (py "Formatted Title") c in
  c <- getitem results (py "html_description") ;;
  let df := setitem df (py "HTML Description") c in
  c <- getitem results (py "seo_description") ;;
  let df := setitem df (py "SEO Description") c in
  to_csv df output_csv ;;;
  print (py "Saved formatted deals to " ++ output_csv).

(** The command line after [argparse], and the environment. *)
Record Args := {
  input_csv : str;
  output_csv : str;
  opt_api_key : option str
}.

Definition key_required : str :=
  py "OpenAI API key required via --api-key or OPENAI_API_KEY env var".

(** The [__main__] block: [--api-key] defaults to the environment
    variable, and an absent or empty key ends the process. *)
Definition script (W : World) (args : Args) (OPENAI_API_KEY : option str) : M unit :=
  let api_key :=
    match opt_api_key args with
    | Some k => Some k
    | None => OPENAI_API_KEY
    end in
  match api_key with
  | Some (c :: k) => main W (input_csv args) (output_csv args) (c :: k)
  | _ => raise (SystemExit key_required)
  end.

(** ** Stand-ins for the collaborators, for the examples *)

Definition quoted (s : str) : str := [34%N] ++ s ++ [34%N].

(** The text of a well-formed reply: a JSON object with the three keys,
    each with a string value. *)
Definition good_reply : str :=
  py "{" ++ quoted (py "title") ++ py ": " ++ quoted (py "Travel Mouse")
  ++ py ", " ++ quoted (py "html_description") ++ py ": "
  ++ quoted (py "<h2>Mouse</h2>")
  ++ py ", " ++ quoted (py "seo_description") ++ py ": "
  ++ quoted (py "A compact wireless mouse.") ++ py "}".

Definition good_dict : dict :=
  [ (py "title", Str (py "Travel Mouse"));
    (py "html_description", Str (py "<h2>Mouse</h2>"));
    (py "seo_description", Str (py "A compact wireless mouse.")) ].

(** [json.loads] on the three texts the examples feed it: the reply above,
    the empty object, and prose. *)
Definition stub_json_loads (s : str) : attempt pyvalue :=
  if str_eqb s good_reply then Returns (Dict good_dict)
  else if str_eqb s (py "{}") then Returns (Dict [])
  else Fails (py "Expecting value: line 1 column 1 (char 0)").

(** A world with one input table and the replies of the successive calls
    (prose once the list is used up). *)
Definition stub_world (df : frame) (replies : list (attempt str)) : World := {|
  unicode := ascii_case;
  csv_at _ := Returns df;
  openai_reply _ n _ := nth n replies (Returns (py "Sorry, I cannot help."));
  json_loads := stub_json_loads
|}.

Definition two_deals : frame := {|
  nrows := 2;
  cols :=
    [ (py "RawTitle", [Str (py "  wireless   mouse  "); Str (py "3d tv")]);
      (py "RawDescription",
        [Str (py "Great   for   travel." ++ nl ++ nl ++ py "Compact."); NaN]) ]
|}.

Definition one_deal : frame := {|
  nrows := 1;
  cols :=
    [ (py "RawTitle", [Str (py "  wireless   mouse  ")]);
      (py "RawDescription", [Str (py "Great   for   travel.")]) ]
|}.

(** A table with its header and no data row. *)
Definition no_deals : frame := {|
  nrows := 0;
  cols := [ (py "RawTitle", []); (py "RawDescription", []) ]
|}.

Definition demo_args : Args := {|
  input_csv := py "in.csv";
  output_csv := py "out.csv";
  opt_api_key := Some (py "sk-demo")
|}.

Definition demo_world : World :=
  stub_world two_deals [Returns good_reply; Fails (py "Connection error.")].

(** The same world, but the second call fails with another message. *)
Definition demo_world_other_error : World :=
  stub_world two_deals [Returns good_reply; Fails (py "Timed out.")].

(** The dicts [generate_listing] returns for the two rows of [demo_world]. *)
Definition demo_dicts : list dict :=
  [ good_dict;
    fallback (Str (py "3D Tv")) (Str (py "nan")) (py "Connection error.") ].

(** [json.loads] as above, and on the JSON array [[1, 2]], a valid
    document that is not an object. *)
Definition stub_json_loads_array (s : str) : attempt pyvalue :=
  if str_eqb s (py "[1, 2]") then Returns NotDict else stub_json_loads s.

(** The two deals again: the first call is answered with the array, the
    second with the well-formed reply. *)
Definition array_first_world : World := {|
  unicode := ascii_case;
  csv_at _ := Returns two_deals;
  openai_reply _ n _ :=
    nth n [Returns (py "[1, 2]"); Returns good_reply]
        (Returns (py "Sorry, I cannot help."));
  json_loads := stub_json_loads_array
|}.

(** The first call is answered with the empty object, the second fails. *)
Definition empty_object_first_world : World :=
  stub_world two_deals [Returns (py "{}"); Fails (py "Connection error.")].

(** A row as [main] hands it to [generate_listing]. *)
Definition mouse_row : row :=
  [ (py "clean_title", Str (py "Wireless   Mouse"));
    (py "clean_desc", Str (py "Great for travel.")) ].

(** ** Vocabulary of the statements *)

(** The string begins, or ends, with a whitespace character. *)
Definition leading_ws (s : str) : bool :=
  match s with
  | c :: _ => isspace c
  | [] => false
  end.

Definition trailing_ws (s : str) : bool := leading_ws (rev s).

(** Two whitespace characters stand next to each other somewhere. *)
Fixpoint adjacent_ws (s : str) : bool :=
  match s with
  | [] => false
  | c1 :: t =>
      match t with
      | c2 :: _ => isspace c1 && isspace c2
      | [] => false
      end || adjacent_ws t
  end.

(** [P] holds of the first character of every word, a word being a
    maximal run of characters that are not whitespace; [after_ws] tells
    whether a word may begin at the head of [s]. *)
Fixpoint word_heads (P : char -> bool) (after_ws : bool) (s : str) : bool :=
  match s with
  | [] => true
  | c :: t =>
      (if after_ws && negb (isspace c) then P c else true)
      && word_heads P (isspace c) t
  end.

Definition every_word_begins (P : char -> bool) (s : str) : bool :=
  word_heads P true s.

(** Not one of the letters a to z. *)
Definition not_ascii_lower (c : char) : bool := negb (ascii_is_lower c).

(** A mapping of one character that is not empty and free of whitespace. *)
Definition solid (m : list char) : Prop :=
  m <> [] /\ forallb (fun c => negb (isspace c)) m = true.

(** What the statements on [str.title] need of the case tables: whitespace
    is uncased and mapped to itself, any other character is mapped to
    characters that are not whitespace, and no title-case mapping begins
    with one of the letters a to z. *)
Record case_sane (U : UnicodeCase) : Prop := {
  ws_uncased : forall c, isspace c = true ->
    is_cased U c = false /\ to_title U c = [c]
    /\ forall data i, to_lower U data i c = [c];
  mapped_solid : forall c, isspace c = false ->
    solid (to_title U c) /\ forall data i, solid (to_lower U data i c);
  title_not_lower : forall c,
    match to_title U c with
    | x :: _ => ascii_is_lower x = false
    | [] => True
    end
}.

(** The value [generate_listing] returns at its [n]-th remote call for a
    row whose cleaned cells are [t] and [d]. *)
Definition listing (W : World) (api_key : str) (n : nat) (t d : cell) : pyvalue :=
  match attempt_bind (openai_reply W api_key n (build_prompt (py_str t) (py_str d)))
                     (fun content => json_loads W (strip content)) with
  | Returns v => v
  | Fails exc => Dict (fallback t d exc)
  end.

Definition row_prompt (r : row) : str :=
  match lookup (py "clean_title") r, lookup (py "clean_desc") r with
  | Some t, Some d => build_prompt (py_str t) (py_str d)
  | _, _ => []
  end.

Definition row_listing (W : World) (api_key : str) (n : nat) (r : row) : pyvalue :=
  match lookup (py "clean_title") r, lookup (py "clean_desc") r with
  | Some t, Some d => listing W api_key n t d
  | _, _ => NotDict
  end.

(** The values returned for successive rows, the first of them at call
    number [n]. *)
Fixpoint listings_from (W : World) (api_key : str) (n : nat) (rs : list row)
  : list pyvalue :=
  match rs with
  | [] => []
  | r :: t => row_listing W api_key n r :: listings_from W api_key (S n) t
  end.

Definition clean_title_cell (U : UnicodeCase) (v : cell) : cell :=
  Str (clean_title U (py_str v)).

Definition clean_desc_cell (v : cell) : cell :=
  Str (clean_desc (py_str v)).

(** The frame after lines 71 and 72. *)
Definition normalised (U : UnicodeCase) (df : frame) (raw_title raw_desc : list cell)
  : frame :=
  setitem (setitem df (py "clean_title") (map (clean_title_cell U) raw_title))
          (py "clean_desc") (map clean_desc_cell raw_desc).

(** The three members of a result the driver reads. *)
Definition three_fields (v : pyvalue) : option (option cell * option cell * option cell) :=
  match v with
  | Dict d =>
      Some (lookup (py "title") d, lookup (py "html_description") d,
            lookup (py "seo_description") d)
  | NotDict => None
  end.

(** Two results, or two dicts, with the same three members. *)
Definition agree (v v' : pyvalue) : Prop := three_fields v = three_fields v'.

Definition agree_dict (d d' : dict) : Prop :=
  lookup (py "title") d = lookup (py "title") d'
  /\ lookup (py "html_description") d = lookup (py "html_description") d'
  /\ lookup (py "seo_description") d = lookup (py "seo_description") d'.

(** Two worlds that differ at most in what their generation results hold
    beside the three fields. *)
Record same_three_fields (W W' : World) : Prop := {
  same_unicode : unicode W = unicode W';
  same_csv : forall path, csv_at W path = csv_at W' path;
  same_fields : forall api_key n t d,
    three_fields (listing W api_key n t d) = three_fields (listing W' api_key n t d)
}.

Definition output_names : list str :=
  [ py "clean_title"; py "clean_desc";
    py "Formatted Title"; py "HTML Description"; py "SEO Description" ].

(** The member [k] of a dict as a cell of the expanded frame. *)
Definition field (k : str) (d : dict) : cell :=
  match lookup k d with
  | Some v => v
  | None => NaN
  end.

(** Some dict of the list has the key [k]. *)
Definition has_key (k : str) (ds : list dict) : bool :=
  existsb (fun d => match lookup k d with Some _ => true | None => false end) ds.

Definition axis_empty (df : frame) : bool :=
  (nrows df =? 0) || (length (cols df) =? 0).

(** What [df.apply] returns on a frame that went through lines 71 and 72,
    without the bookkeeping of the calls; [None] stands for [Unmodelled]. *)
Definition expanded (W : World) (api_key : str) (df : frame) : option frame :=
  if axis_empty df then Some df
  else option_map frame_of_dicts (as_dicts (listings_from W api_key 0 (rows df))).

(** The remote calls [df.apply] makes: none on an empty frame, one per
    row otherwise. *)
Definition chat_events (df : frame) : log :=
  if axis_empty df then [] else map (fun r => EvChat (row_prompt r)) (rows df).

(** The frame after lines 76 to 78. *)
Definition merged (df : frame) (c1 c2 c3 : list cell) : frame :=
  setitem (setitem (setitem df (py "Formatted Title") c1)
                   (py "HTML Description") c2)
          (py "SEO Description") c3.

(** The run of [main] from an empty log, decision by decision. *)
Definition outcome (W : World) (input_csv output_csv api_key : str)
  : result unit * log :=
  match csv_at W input_csv with
  | Fails msg => (Raise (Error msg), [EvReadCsv input_csv])
  | Returns df =>
    match lookup (py "RawTitle") (cols df), lookup (py "RawDescription") (cols df) with
    | None, _ => (Raise (KeyError (py "RawTitle")), [EvReadCsv input_csv])
    | Some _, None => (Raise (KeyError (py "RawDescription")), [EvReadCsv input_csv])
    | Some raw_title, Some raw_desc =>
      let df2 := normalised (unicode W) df raw_title raw_desc in
      let sent := EvReadCsv input_csv :: chat_events df2 in
      match expanded W api_key df2 with
      | None => (Unmodelled, sent)
      | Some results =>
        match lookup (py "title") (cols results),
              lookup (py "html_description") (cols results),
              lookup (py "seo_description") (cols results) with
        | None, _, _ => (Raise (KeyError (py "title")), sent)
        | Some _, None, _ => (Raise (KeyError (py "html_description")), sent)
        | Some _, Some _, None => (Raise (KeyError (py "seo_description")), sent)
        | Some c1, Some c2, Some c3 =>
          (Ok tt,
           sent ++ [EvWriteCsv output_csv (merged df2 c1 c2 c3);
                    EvPrint (py "Saved formatted deals to " ++ output_csv)])
        end
      end
    end
  end.

(** The characters of a string that are not whitespace, in order. *)
Definition non_whitespace (s : str) : str :=
  filter (fun c => negb (isspace c)) s.

(** Every whitespace character of the string is the space U+0020. *)
Definition ws_are_spaces (s : str) : bool :=
  forallb (fun c => negb (isspace c) || (c =? space)%N) s.

(** A string as the description normaliser leaves one: single spaces
    between words, nothing around them. *)
Definition tidy (s : str) : bool :=
  negb (adjacent_ws s) && ws_are_spaces s
  && negb (leading_ws s) && negb (trailing_ws s).

Definition newline : char := 10%N.

(** The prompts of the remote calls of a log, in the order of the calls. *)
Fixpoint prompts (st : log) : list str :=
  match st with
  | [] => []
  | EvChat p :: t => p :: prompts t
  | _ :: t => prompts t
  end.

(** The prompt [main] sends for a row with these raw cells. *)
Definition prompt_of (U : UnicodeCase) (raw_title raw_desc : cell) : str :=
  build_prompt (clean_title U (py_str raw_title)) (clean_desc (py_str raw_desc)).

(** A table without the description column. *)
Definition titles_only : frame := {|
  nrows := 1;
  cols := [ (py "RawTitle", [Str (py "usb hub")]) ]
|}.

(** * Properties *)

(** ** Whitespace *)

Lemma isspace_space : isspace space = true.
Proof. reflexivity. Qed.

Lemma isspace_iff (c : char) :
  isspace c = true <->
  (9 <= c <= 13 \/ 28 <= c <= 32 \/ c = 133 \/ c = 160 \/ c = 5760
   \/ 8192 <= c <= 8202 \/ c = 8232 \/ c = 8233 \/ c = 8239 \/ c = 8287
   \/ c = 12288)%N.
Proof.
  unfold isspace.
  rewrite !orb_true_iff, !andb_true_iff, !N.leb_le, !N.eqb_eq.
  tauto.
Qed.

Lemma lstrip_leading (s : str) : leading_ws (lstrip s) = false.
Proof.
  induction s as [|c t IH]; simpl; [reflexivity|].
  destruct (isspace c) eqn:E; [exact IH|]. simpl. exact E.
Qed.

Lemma lstrip_suffix (s : str) : exists pre, s = pre ++ lstrip s.
Proof.
  induction s as [|c t [pre IH]]; simpl.
  - exists []. reflexivity.
  - destruct (isspace c).
    + exists (c :: pre). simpl. f_equal. exact IH.
    + exists []. reflexivity.
Qed.

Lemma lstrip_snoc (s : str) (c : char) :
  isspace c = false -> lstrip (s ++ [c]) = lstrip s ++ [c].
Proof.
  intros Hc. induction s as [|a t IH]; simpl.
  - rewrite Hc. reflexivity.
  - destruct (isspace a); [exact IH | reflexivity].
Qed.

Lemma rstrip_trailing (s : str) : trailing_ws (rstrip s) = false.
Proof.
  unfold trailing_ws, rstrip. rewrite rev_involutive. apply lstrip_leading.
Qed.

Lemma rstrip_prefix (s : str) : exists post, s = rstrip s ++ post.
Proof.
  unfold rstrip. destruct (lstrip_suffix (rev s)) as [pre E].
  exists (rev pre). rewrite <- rev_app_distr, <- E. symmetry. apply rev_involutive.
Qed.

Lemma rstrip_cons (c : char) (s : str) :
  isspace c = false -> rstrip (c :: s) = c :: rstrip s.
Proof.
  intros Hc. unfold rstrip. simpl.
  rewrite lstrip_snoc by exact Hc. rewrite rev_app_distr. reflexivity.
Qed.

Lemma rstrip_leading (s : str) : leading_ws s = false -> leading_ws (rstrip s) = false.
Proof.
  destruct s as [|c t]; [reflexivity|]. simpl. intros Hc.
  rewrite rstrip_cons by exact Hc. exact Hc.
Qed.

Lemma strip_leading (s : str) : leading_ws (strip s) = false.
Proof. apply rstrip_leading, lstrip_leading. Qed.

Lemma strip_trailing (s : str) : trailing_ws (strip s) = false.
Proof. apply rstrip_trailing. Qed.

Lemma strip_infix (s : str) : exists pre post, s = pre ++ strip s ++ post.
Proof.
  destruct (lstrip_suffix s) as [pre E].
  destruct (rstrip_prefix (lstrip s)) as [post E'].
  exists pre, post. unfold strip. rewrite <- E'. exact E.
Qed.

Lemma adjacent_ws_app_l (a b : str) :
  adjacent_ws (a ++ b) = false -> adjacent_ws a = false.
Proof.
  induction a as [|c1 t IH]; simpl; [reflexivity|].
  intros H. apply orb_false_iff in H. destruct H as [H1 H2].
  rewrite (IH H2), orb_false_r.
  destruct t as [|c2 t']; [reflexivity | exact H1].
Qed.

Lemma adjacent_ws_app_r (a b : str) :
  adjacent_ws (a ++ b) = false -> adjacent_ws b = false.
Proof.
  induction a as [|c1 t IH]; simpl; [trivial|].
  intros H. apply orb_false_iff in H. apply IH, H.
Qed.

Lemma strip_adjacent (s : str) : adjacent_ws s = false -> adjacent_ws (strip s) = false.
Proof.
  destruct (strip_infix s) as (pre & post & E). intros H. rewrite E in H.
  apply adjacent_ws_app_r in H. apply adjacent_ws_app_l in H. exact H.
Qed.

(** After the substitution a whitespace character is a single space that
    no whitespace follows. *)
Lemma sub_ws_adjacent (s : str) (in_run : bool) :
  adjacent_ws (sub_ws in_run s) = false
  /\ (in_run = true -> leading_ws (sub_ws in_run s) = false).
Proof.
  revert in_run. induction s as [|c t IH]; intros in_run; simpl.
  - split; reflexivity.
  - destruct (isspace c) eqn:E.
    + destruct (IH true) as [IH1 IH2]. destruct in_run.
      * split; [exact IH1 | intros _; apply IH2; reflexivity].
      * split; [|discriminate]. simpl. rewrite IH1, orb_false_r.
        specialize (IH2 eq_refl).
        destruct (sub_ws true t) as [|c2 t']; [reflexivity|].
        simpl in IH2. simpl. rewrite IH2. reflexivity.
    + destruct (IH false) as [IH1 _]. split.
      * simpl. rewrite IH1, orb_false_r, E.
        destruct (sub_ws false t); reflexivity.
      * intros _. simpl. exact E.
Qed.

(** C6. For every input string, the cleaned description holds no two
    consecutive whitespace characters and neither begins nor ends with
    whitespace. *)
Theorem clean_desc_normal (raw : str) :
  adjacent_ws (clean_desc raw) = false
  /\ leading_ws (clean_desc raw) = false
  /\ trailing_ws (clean_desc raw) = false.
Proof.
  unfold clean_desc. split; [|split].
  - apply strip_adjacent. apply (sub_ws_adjacent raw false).
  - apply strip_leading.
  - apply strip_trailing.
Qed.

(** ** Title case *)

Lemma not_space_range (c : char) : (33 <= c <= 132)%N -> isspace c = false.
Proof.
  intros H. destruct (isspace c) eqn:E; [|reflexivity].
  apply isspace_iff in E. lia.
Qed.

Lemma ascii_is_lower_iff (c : char) : ascii_is_lower c = true <-> (97 <= c <= 122)%N.
Proof. unfold ascii_is_lower. rewrite andb_true_iff, !N.leb_le. tauto. Qed.

Lemma ascii_is_upper_iff (c : char) : ascii_is_upper c = true <-> (65 <= c <= 90)%N.
Proof. unfold ascii_is_upper. rewrite andb_true_iff, !N.leb_le. tauto. Qed.

Lemma ascii_upper_not_lower (c : char) : ascii_is_lower (ascii_upper c) = false.
Proof.
  unfold ascii_upper. destruct (ascii_is_lower c) eqn:E; [|exact E].
  apply ascii_is_lower_iff in E.
  destruct (ascii_is_lower (c - 32)%N) eqn:E'; [|reflexivity].
  apply ascii_is_lower_iff in E'. lia.
Qed.

Lemma ascii_upper_not_space (c : char) :
  isspace c = false -> isspace (ascii_upper c) = false.
Proof.
  intros H. unfold ascii_upper. destruct (ascii_is_lower c) eqn:E; [|exact H].
  apply ascii_is_lower_iff in E. apply not_space_range. lia.
Qed.

Lemma ascii_lower_not_space (c : char) :
  isspace c = false -> isspace (ascii_lower c) = false.
Proof.
  intros H. unfold ascii_lower. destruct (ascii_is_upper c) eqn:E; [|exact H].
  apply ascii_is_upper_iff in E. apply not_space_range. lia.
Qed.

Lemma space_not_letter (c : char) :
  isspace c = true -> ascii_is_upper c = false /\ ascii_is_lower c = false.
Proof.
  intros H. apply isspace_iff in H. split.
  - destruct (ascii_is_upper c) eqn:E; [|reflexivity].
    apply ascii_is_upper_iff in E. lia.
  - destruct (ascii_is_lower c) eqn:E; [|reflexivity].
    apply ascii_is_lower_iff in E. lia.
Qed.

Lemma ascii_case_sane : case_sane ascii_case.
Proof.
  constructor; simpl.
  - intros c H. destruct (space_not_letter c H) as [Hu Hl].
    unfold ascii_upper, ascii_lower. rewrite Hu, Hl. auto.
  - intros c H. unfold solid. simpl. split; [|intros _ _].
    + rewrite (ascii_upper_not_space c H). split; [discriminate | reflexivity].
    + rewrite (ascii_lower_not_space c H). split; [discriminate | reflexivity].
  - intros c. apply ascii_upper_not_lower.
Qed.

Lemma ascii_case_exact : ascii_exact ascii_case.
Proof. intros c _. auto. Qed.

(** On ASCII text every database that is exact there gives the title of
    [ascii_case]. *)
Lemma do_title_ascii (U : UnicodeCase) (rest : str) :
  ascii_exact U -> is_ascii rest ->
  forall data data' i i' prev,
    do_title U data i prev rest = do_title ascii_case data' i' prev rest.
Proof.
  intros HU. induction 1 as [|c t Hc Ht IH]; intros data data' i i' prev.
  - reflexivity.
  - destruct (HU c Hc) as (Hcased & _ & Htitle & Hlower). cbn [do_title].
    rewrite Hcased, Htitle, (Hlower data i), (IH data data' (S i) (S i')).
    destruct prev; reflexivity.
Qed.

Lemma strip_ascii (s : str) : is_ascii s -> is_ascii (strip s).
Proof.
  intros H. destruct (strip_infix s) as (pre & post & E).
  unfold is_ascii in *. rewrite E in H.
  apply Forall_app in H. destruct H as [_ H].
  apply Forall_app in H. apply H.
Qed.

Lemma clean_title_ascii (U : UnicodeCase) (raw : str) :
  ascii_exact U -> is_ascii raw -> clean_title U raw = clean_title ascii_case raw.
Proof.
  intros HU Hraw. unfold clean_title, title.
  apply do_title_ascii; [exact HU | apply strip_ascii, Hraw].
Qed.

Lemma is_ascii_check (s : str) : forallb (fun c => (c <? 128)%N) s = true -> is_ascii s.
Proof.
  intros H. apply Forall_forall. intros c Hc.
  rewrite forallb_forall in H. apply N.ltb_lt, H, Hc.
Qed.

Lemma word_heads_skip (P : char -> bool) (m r : str) :
  forallb (fun c => negb (isspace c)) m = true ->
  word_heads P false (m ++ r) = word_heads P false r.
Proof.
  induction m as [|x m IH]; simpl; [reflexivity|].
  intros H. apply andb_true_iff in H. destruct H as [Hx Hm].
  apply negb_true_iff in Hx. rewrite Hx. apply IH, Hm.
Qed.

Lemma word_heads_solid (P : char -> bool) (after_ws : bool) (m r : str) :
  solid m ->
  word_heads P after_ws (m ++ r)
  = (if after_ws then P (hd space m) else true) && word_heads P false r.
Proof.
  intros [Hne Hall]. destruct m as [|x m]; [contradiction|].
  simpl in *. apply andb_true_iff in Hall. destruct Hall as [Hx Hm].
  rewrite Hx. apply negb_true_iff in Hx. rewrite Hx, andb_true_r.
  rewrite word_heads_skip by exact Hm. reflexivity.
Qed.

Section Title.

Variable U : UnicodeCase.
Hypothesis sane : case_sane U.

Lemma do_title_word_heads (data rest : str) :
  forall i prev after_ws,
    (prev = true -> after_ws = false) ->
    word_heads not_ascii_lower after_ws (do_title U data i prev rest) = true.
Proof.
  induction rest as [|c t IH]; intros i prev after_ws Hinv; [reflexivity|].
  cbn [do_title]. destruct (isspace c) eqn:Ec.
  - destruct (ws_uncased sane c Ec) as (Hcased & Htitle & Hlower).
    rewrite Hcased, Htitle, Hlower.
    replace (if prev then [c] else [c]) with [c] by (destruct prev; reflexivity).
    simpl. rewrite Ec, andb_false_r. simpl. apply IH. discriminate.
  - destruct (mapped_solid sane c Ec) as [Htitle Hlower].
    rewrite word_heads_solid by (destruct prev; [apply Hlower | apply Htitle]).
    rewrite IH by reflexivity. rewrite andb_true_r.
    destruct after_ws; [|reflexivity].
    destruct prev; [specialize (Hinv eq_refl); discriminate|].
    pose proof (title_not_lower sane c) as Hhd.
    destruct Htitle as [Hne _].
    destruct (to_title U c) as [|x m]; [contradiction|].
    simpl. unfold not_ascii_lower. rewrite Hhd. reflexivity.
Qed.

Lemma title_leading (s : str) : leading_ws s = false -> leading_ws (title U s) = false.
Proof.
  destruct s as [|c t]; [reflexivity|]. simpl. intros Hc.
  destruct (mapped_solid sane c Hc) as [[Hne Hall] _]. unfold title. cbn [do_title].
  destruct (to_title U c) as [|x m]; [contradiction|].
  simpl in *. apply andb_true_iff in Hall. apply negb_true_iff, Hall.
Qed.

Lemma do_title_snoc (data a : str) (c : char) :
  forall i prev, exists m,
    do_title U data i prev (a ++ [c]) = do_title U data i prev a ++ m
    /\ (m = to_title U c \/ exists j, m = to_lower U data j c).
Proof.
  induction a as [|x a IH]; intros i prev.
  - exists (if prev then to_lower U data i c else to_title U c). split.
    + cbn [app do_title]. apply app_nil_r.
    + destruct prev; [right; exists i; reflexivity | left; reflexivity].
  - destruct (IH (S i) (is_cased U x)) as (m & E & Hm).
    exists m. split; [|exact Hm].
    cbn [app do_title]. rewrite E. apply app_assoc.
Qed.

Lemma solid_trailing (m pre : str) : solid m -> trailing_ws (pre ++ m) = false.
Proof.
  intros [Hne Hall]. unfold trailing_ws. rewrite rev_app_distr.
  destruct (rev m) as [|x r] eqn:E.
  - apply (f_equal (@rev char)) in E. rewrite rev_involutive in E.
    simpl in E. contradiction.
  - simpl. rewrite forallb_forall in Hall.
    apply negb_true_iff, Hall, in_rev. rewrite E. left. reflexivity.
Qed.

Lemma title_trailing (s : str) : trailing_ws s = false -> trailing_ws (title U s) = false.
Proof.
  destruct (rev s) as [|c r] eqn:E; intros H.
  - apply (f_equal (@rev char)) in E. rewrite rev_involutive in E.
    subst s. reflexivity.
  - apply (f_equal (@rev char)) in E. rewrite rev_involutive in E. simpl in E.
    subst s. unfold trailing_ws in H. rewrite rev_app_distr in H. simpl in H.
    unfold title.
    destruct (do_title_snoc (rev r ++ [c]) (rev r) c 0 false) as (m & Em & Hm).
    rewrite Em. apply solid_trailing.
    destruct (mapped_solid sane c H) as [Htitle Hlower].
    destruct Hm as [-> | [j ->]]; [apply Htitle | apply Hlower].
Qed.

End Title.

(** C7, as the code has it.  For every input string, the cleaned title
    neither begins nor ends with whitespace, and no word of it begins with
    one of the lowercase letters a to z: the first character of a word is
    title-cased, which leaves a digit or any other uncased character as it
    is. *)
Theorem clean_title_normal (U : UnicodeCase) (raw : str) :
  case_sane U ->
  leading_ws (clean_title U raw) = false
  /\ trailing_ws (clean_title U raw) = false
  /\ every_word_begins not_ascii_lower (clean_title U raw) = true.
Proof.
  intros sane. unfold clean_title. split; [|split].
  - apply title_leading; [exact sane | apply strip_leading].
  - apply title_trailing; [exact sane | apply strip_trailing].
  - unfold every_word_begins, title. apply do_title_word_heads; [exact sane | discriminate].
Qed.

Lemma clean_title_normal_witness :
  leading_ws (clean_title ascii_case (py "3d tv")) = false
  /\ trailing_ws (clean_title ascii_case (py "3d tv")) = false
  /\ every_word_begins not_ascii_lower
       (clean_title ascii_case (py "3d tv")) = true.
Proof. apply (clean_title_normal (py "3d tv") ascii_case_sane). Defined.

(** C7 as stated fails: the title of "3d tv" is "3D Tv", whose first word
    begins with the digit 3 and not with an uppercase letter. *)
Lemma clean_title_word_begins_with_digit :
  clean_title ascii_case (py "3d tv") = py "3D Tv"
  /\ every_word_begins (is_upper ascii_case) (clean_title ascii_case (py "3d tv")) = false.
Proof. split; reflexivity. Qed.

(** The same holds with any case tables that are exact on ASCII. *)
Lemma clean_title_digit_any_tables (U : UnicodeCase) :
  ascii_exact U ->
  clean_title U (py "3d tv") = py "3D Tv"
  /\ every_word_begins (is_upper U) (clean_title U (py "3d tv")) = false.
Proof.
  intros HU.
  rewrite (clean_title_ascii HU) by (apply is_ascii_check; reflexivity).
  split; [reflexivity|].
  replace (clean_title ascii_case (py "3d tv")) with (py "3D Tv") by reflexivity.
  assert (H3 : is_upper U 51%N = false).
  { destruct (HU 51%N) as (_ & H & _); [reflexivity | exact H]. }
  cbn. rewrite H3. reflexivity.
Qed.

(** C2, as the code has it.  The title "  wireless   mouse  " is stripped
    and title-cased, which keeps the three spaces between its words; the
    description has its whitespace runs collapsed. *)
Theorem normalise_wireless_mouse (U : UnicodeCase) :
  ascii_exact U ->
  clean_title U (py "  wireless   mouse  ") = py "Wireless   Mouse"
  /\ clean_desc (py "Great   for   travel." ++ nl ++ nl ++ py "Compact.")
     = py "Great for travel. Compact.".
Proof.
  intros HU. split.
  - rewrite (clean_title_ascii HU) by (apply is_ascii_check; reflexivity).
    reflexivity.
  - reflexivity.
Qed.

Lemma normalise_wireless_mouse_witness :
  clean_title ascii_case (py "  wireless   mouse  ") = py "Wireless   Mouse"
  /\ clean_desc (py "Great   for   travel." ++ nl ++ nl ++ py "Compact.")
     = py "Great for travel. Compact.".
Proof. apply (normalise_wireless_mouse ascii_case_exact). Defined.

(** C2 as stated fails: the cleaned title is not "Wireless Mouse". *)
Lemma wireless_mouse_keeps_inner_spaces :
  clean_title ascii_case (py "  wireless   mouse  ") = py "Wireless   Mouse"
  /\ clean_title ascii_case (py "  wireless   mouse  ") <> py "Wireless Mouse".
Proof. split; [reflexivity | discriminate]. Qed.

(** ** The listing generator *)

Lemma calls_chat (st : log) (p : str) : calls (st ++ [EvChat p]) = S (calls st).
Proof.
  unfold calls. rewrite filter_app, length_app. simpl. lia.
Qed.

Lemma generate_listing_run (W : World) (api_key : str) (r : row) (t d : cell) (st : log) :
  lookup (py "clean_title") r = Some t ->
  lookup (py "clean_desc") r = Some d ->
  generate_listing W api_key r st
  = (Ok (listing W api_key (calls st) t d),
     st ++ [EvChat (build_prompt (py_str t) (py_str d))]).
Proof.
  intros Ht Hd. unfold generate_listing, bind, row_getitem.
  rewrite Ht. unfold ret at 1. rewrite Hd. unfold ret at 1.
  unfold ChatCompletion_create, listing.
  destruct (attempt_bind _ _); reflexivity.
Qed.

(** C1, as the code has it.  For a row with its two cleaned cells: when
    the remote call raises, or its reply is not JSON, [generate_listing]
    returns the row's cleaned title and description, an empty SEO text and
    the text of the exception, and raises nothing; a reply that parses is
    returned as parsed, whatever keys it has. *)
Theorem generate_listing_fallback (W : World) (api_key : str) (r : row)
        (t d : cell) (st : log) :
  lookup (py "clean_title") r = Some t ->
  lookup (py "clean_desc") r = Some d ->
  let prompt := build_prompt (py_str t) (py_str d) in
  (forall exc,
      openai_reply W api_key (calls st) prompt = Fails exc
      \/ (exists content,
             openai_reply W api_key (calls st) prompt = Returns content
             /\ json_loads W (strip content) = Fails exc) ->
      generate_listing W api_key r st
      = (Ok (Dict [ (py "title", t);
                    (py "html_description", d);
                    (py "seo_description", Str []);
                    (py "error", Str exc) ]),
         st ++ [EvChat prompt]))
  /\ (forall content v,
         openai_reply W api_key (calls st) prompt = Returns content ->
         json_loads W (strip content) = Returns v ->
         generate_listing W api_key r st = (Ok v, st ++ [EvChat prompt])).
Proof.
  intros Ht Hd prompt. rewrite (generate_listing_run W api_key r st Ht Hd).
  unfold listing. fold prompt. split.
  - intros exc [E | (content & E & E')]; rewrite E; simpl; [|rewrite E']; reflexivity.
  - intros content v E E'. rewrite E. simpl. rewrite E'. reflexivity.
Qed.

Lemma generate_listing_fallback_witness :
  generate_listing (stub_world one_deal [Fails (py "Connection error.")])
                   (py "sk-demo") mouse_row []
  = (Ok (Dict [ (py "title", Str (py "Wireless   Mouse"));
                (py "html_description", Str (py "Great for travel."));
                (py "seo_description", Str []);
                (py "error", Str (py "Connection error.")) ]),
     [EvChat (build_prompt (py "Wireless   Mouse") (py "Great for travel."))]).
Proof.
  apply (proj1 (generate_listing_fallback
                  (stub_world one_deal [Fails (py "Connection error.")])
                  (py "sk-demo") mouse_row [] eq_refl eq_refl)).
  left. reflexivity.
Defined.

(** C1 as stated fails: the reply [{}] is valid JSON without any of the
    three keys, and [generate_listing] returns the empty dict it parses
    to, not the fallback. *)
Lemma generate_listing_returns_empty_object :
  json_loads (stub_world one_deal [Returns (py "{}")]) (strip (py "{}"))
  = Returns (Dict [])
  /\ fst (generate_listing (stub_world one_deal [Returns (py "{}")])
                           (py "sk-demo") mouse_row [])
     = Ok (Dict []).
Proof. split; reflexivity. Qed.

(** ** Names, columns and rows *)

Arguments py : simpl never.

Lemma str_eqb_refl (k : str) : str_eqb k k = true.
Proof. unfold str_eqb. destruct (str_eq_dec k k); [reflexivity | contradiction]. Qed.

Lemma str_eqb_neq (a b : str) : a <> b -> str_eqb a b = false.
Proof. intros H. unfold str_eqb. destruct (str_eq_dec a b); [contradiction | reflexivity]. Qed.

Lemma str_eqb_eq (a b : str) : str_eqb a b = true -> a = b.
Proof. unfold str_eqb. destruct (str_eq_dec a b); [trivial | discriminate]. Qed.

(** Two spelled-out names are different. *)
Ltac names_differ :=
  let H := fresh in intro H; vm_compute in H; discriminate H.

Lemma lookup_assign_same (k : str) (c : list cell) (cs : list (str * list cell)) :
  lookup k (assign k c cs) = Some c.
Proof.
  induction cs as [|[k' c'] t IH]; cbn [assign lookup].
  - rewrite str_eqb_refl. reflexivity.
  - destruct (str_eqb k k') eqn:E; cbn [lookup].
    + rewrite str_eqb_refl. reflexivity.
    + rewrite E. exact IH.
Qed.

Lemma lookup_assign_other (k k' : str) (c : list cell) (cs : list (str * list cell)) :
  k <> k' -> lookup k' (assign k c cs) = lookup k' cs.
Proof.
  intros Hk. assert (Hk' : str_eqb k' k = false) by (apply str_eqb_neq; congruence).
  induction cs as [|[k0 c0] t IH]; cbn [assign lookup].
  - rewrite Hk'. reflexivity.
  - destruct (str_eqb k k0) eqn:E; cbn [lookup].
    + apply str_eqb_eq in E. subst k0. rewrite Hk'. reflexivity.
    + destruct (str_eqb k' k0); [reflexivity | exact IH].
Qed.

Lemma lookup_setitem_same (df : frame) (k : str) (c : list cell) :
  lookup k (cols (setitem df k c)) = Some (reindex (nrows df) c).
Proof. apply lookup_assign_same. Qed.

Lemma lookup_setitem_other (df : frame) (k k' : str) (c : list cell) :
  k <> k' -> lookup k' (cols (setitem df k c)) = lookup k' (cols df).
Proof. apply lookup_assign_other. Qed.

Lemma lookup_row_at (df : frame) (i : nat) (k : str) :
  lookup k (row_at df i) = option_map (fun c => nth i c NaN) (lookup k (cols df)).
Proof.
  unfold row_at. induction (cols df) as [|[k' c'] t IH]; cbn [map lookup fst snd].
  - reflexivity.
  - destruct (str_eqb k k'); [reflexivity | exact IH].
Qed.

Lemma reindex_length (n : nat) (c : list cell) : length (reindex n c) = n.
Proof.
  unfold reindex. rewrite length_app, length_firstn, repeat_length. lia.
Qed.

Lemma reindex_id (n : nat) (c : list cell) : length c = n -> reindex n c = c.
Proof.
  intros <-. unfold reindex. rewrite firstn_all, Nat.sub_diag. apply app_nil_r.
Qed.

Lemma columns_assign (k : str) (c : list cell) (cs : list (str * list cell)) :
  map fst (assign k c cs) = add_key (map fst cs) k.
Proof.
  unfold add_key. induction cs as [|[k0 c0] t IH]; cbn [assign map fst].
  - destruct (in_dec str_eq_dec k []) as [[]|_]. reflexivity.
  - destruct (str_eqb k k0) eqn:E.
    + apply str_eqb_eq in E. subst k0. cbn [map fst].
      destruct (in_dec str_eq_dec k (k :: map fst t)) as [_|n]; [reflexivity|].
      exfalso. apply n. left. reflexivity.
    + cbn [map fst]. rewrite IH.
      assert (Hne : k0 <> k).
      { intros ->. rewrite str_eqb_refl in E. discriminate. }
      destruct (in_dec str_eq_dec k (map fst t)) as [i|n];
        destruct (in_dec str_eq_dec k (k0 :: map fst t)) as [j|m]; try reflexivity.
      * exfalso. apply m. right. exact i.
      * exfalso. destruct j as [Ej|j]; [exact (Hne Ej) | exact (n j)].
Qed.

Lemma columns_setitem (df : frame) (k : str) (c : list cell) :
  columns (setitem df k c) = add_key (columns df) k.
Proof. apply columns_assign. Qed.

Lemma add_key_NoDup (l : list str) (k : str) : NoDup l -> NoDup (add_key l k).
Proof.
  intros H. unfold add_key. destruct (in_dec str_eq_dec k l) as [i|n]; [exact H|].
  apply NoDup_app; [exact H | constructor; [intros [] | constructor] |].
  intros x Hx [<- | []]. exact (n Hx).
Qed.

Lemma assign_lengths (n : nat) (k : str) (c : list cell) (cs : list (str * list cell)) :
  length c = n ->
  Forall (fun kc => length (snd kc) = n) cs ->
  Forall (fun kc => length (snd kc) = n) (assign k c cs).
Proof.
  intros Hc. induction 1 as [|[k0 c0] t Hk Ht IH]; cbn [assign].
  - constructor; [exact Hc | constructor].
  - destruct (str_eqb k k0); constructor; assumption.
Qed.

Lemma setitem_wf (df : frame) (k : str) (c : list cell) :
  wf_frame df -> wf_frame (setitem df k c).
Proof.
  intros [Hlen Hdup]. split.
  - apply assign_lengths; [apply reindex_length | exact Hlen].
  - rewrite columns_setitem. apply add_key_NoDup, Hdup.
Qed.

Lemma wf_column_length (df : frame) (k : str) (c : list cell) :
  wf_frame df -> lookup k (cols df) = Some c -> length c = nrows df.
Proof.
  intros [Hlen _]. induction Hlen as [|[k0 c0] t Hk Ht IH]; cbn [lookup]; [discriminate|].
  destruct (str_eqb k k0); [|exact IH]. intros [= <-]. exact Hk.
Qed.

(** ** The frame after normalisation *)

Section Normalised.

Variables (U : UnicodeCase) (df : frame) (raw_title raw_desc : list cell).

Local Abbreviation df2 := (normalised U df raw_title raw_desc).

Lemma normalised_nrows : nrows df2 = nrows df.
Proof. reflexivity. Qed.

Lemma normalised_clean_title :
  lookup (py "clean_title") (cols df2)
  = Some (reindex (nrows df) (map (clean_title_cell U) raw_title)).
Proof.
  unfold normalised.
  rewrite lookup_setitem_other by names_differ. apply lookup_setitem_same.
Qed.

Lemma normalised_clean_desc :
  lookup (py "clean_desc") (cols df2)
  = Some (reindex (nrows df) (map clean_desc_cell raw_desc)).
Proof. unfold normalised. rewrite lookup_setitem_same. reflexivity. Qed.

Lemma normalised_other (k : str) :
  k <> py "clean_title" -> k <> py "clean_desc" ->
  lookup k (cols df2) = lookup k (cols df).
Proof.
  intros H1 H2. unfold normalised.
  rewrite !lookup_setitem_other by congruence. reflexivity.
Qed.

Lemma normalised_wf : wf_frame df -> wf_frame df2.
Proof. intros H. unfold normalised. apply setitem_wf, setitem_wf, H. Qed.

Lemma normalised_columns :
  columns df2 = add_key (add_key (columns df) (py "clean_title")) (py "clean_desc").
Proof. unfold normalised. rewrite !columns_setitem. reflexivity. Qed.

Lemma normalised_rows_clean :
  Forall (fun r => lookup (py "clean_title") r <> None
                   /\ lookup (py "clean_desc") r <> None) (rows df2).
Proof.
  apply Forall_forall. intros r Hr. unfold rows in Hr.
  apply in_map_iff in Hr. destruct Hr as (i & <- & _).
  rewrite !lookup_row_at, normalised_clean_title, normalised_clean_desc.
  split; discriminate.
Qed.

End Normalised.

(** ** The batch driver *)

Lemma mapM_generate_listing (W : World) (api_key : str) (rs : list row) :
  Forall (fun r => lookup (py "clean_title") r <> None
                   /\ lookup (py "clean_desc") r <> None) rs ->
  forall st,
    mapM (generate_listing W api_key) rs st
    = (Ok (listings_from W api_key (calls st) rs),
       st ++ map (fun r => EvChat (row_prompt r)) rs).
Proof.
  induction 1 as [|r t [Ht Hd] Hrest IH]; intros st.
  - cbn [mapM listings_from map]. unfold ret. rewrite app_nil_r. reflexivity.
  - destruct (lookup (py "clean_title") r) as [tc|] eqn:Et; [|contradiction].
    destruct (lookup (py "clean_desc") r) as [dc|] eqn:Ed; [|contradiction].
    cbn [mapM listings_from map]. unfold bind at 1.
    rewrite (generate_listing_run W api_key r st Et Ed).
    unfold bind at 1. rewrite IH, calls_chat. unfold ret.
    unfold row_listing, row_prompt. rewrite Et, Ed, <- app_assoc. reflexivity.
Qed.

Lemma apply_expand_run (W : World) (api_key : str) (U : UnicodeCase) (df : frame)
      (raw_title raw_desc : list cell) (st : log) :
  calls st = 0 ->
  let df2 := normalised U df raw_title raw_desc in
  apply_expand (generate_listing W api_key) df2 st
  = (match expanded W api_key df2 with
     | Some results => Ok results
     | None => Unmodelled
     end, st ++ chat_events df2).
Proof.
  intros Hst df2. unfold apply_expand, expanded, chat_events, axis_empty.
  destruct ((nrows df2 =? 0) || (length (cols df2) =? 0)).
  - unfold ret. rewrite app_nil_r. reflexivity.
  - unfold bind. rewrite mapM_generate_listing by apply normalised_rows_clean.
    rewrite Hst. destruct (as_dicts _); reflexivity.
Qed.

(** The run of [main], decision by decision. *)
Lemma main_outcome (W : World) (inp outp api_key : str) :
  main W inp outp api_key [] = outcome W inp outp api_key.
Proof.
  unfold main, outcome, read_csv, emit.
  unfold bind at 1. unfold bind at 1. cbn [app].
  destruct (csv_at W inp) as [df|msg]; [|reflexivity].
  unfold ret at 1. unfold bind at 1. unfold getitem at 1.
  destruct (lookup (py "RawTitle") (cols df)) as [rt|]; [|reflexivity].
  unfold ret at 1. unfold bind at 1. unfold getitem at 1.
  rewrite lookup_setitem_other by names_differ.
  destruct (lookup (py "RawDescription") (cols df)) as [rd|]; [|reflexivity].
  unfold ret at 1. fold (clean_title_cell (unicode W)). fold clean_desc_cell.
  fold (normalised (unicode W) df rt rd).
  unfold bind at 1.
  rewrite (apply_expand_run W api_key (unicode W) df rt rd [EvReadCsv inp] eq_refl).
  cbn [app].
  destruct (expanded W api_key (normalised (unicode W) df rt rd)) as [results|];
    [|reflexivity].
  unfold bind at 1. unfold getitem at 1.
  destruct (lookup (py "title") (cols results)) as [c1|]; [|reflexivity].
  unfold ret at 1. unfold bind at 1. unfold getitem at 1.
  destruct (lookup (py "html_description") (cols results)) as [c2|]; [|reflexivity].
  unfold ret at 1. unfold bind at 1. unfold getitem at 1.
  destruct (lookup (py "seo_description") (cols results)) as [c3|]; [|reflexivity].
  unfold ret at 1. unfold bind, to_csv, print, emit.
  rewrite <- app_assoc. reflexivity.
Qed.

(** *** The log *)

Lemma written_app (a b : log) :
  written (a ++ b)
  = match written b with
    | Some df => Some df
    | None => written a
    end.
Proof.
  induction a as [|e a IH]; cbn [app written].
  - destruct (written b); reflexivity.
  - rewrite IH. destruct (written b); reflexivity.
Qed.

Lemma written_chats (ps : list row) :
  written (map (fun r => EvChat (row_prompt r)) ps) = None.
Proof. induction ps as [|p t IH]; cbn [map written]; [|rewrite IH]; reflexivity. Qed.

Lemma written_chat_events (df : frame) : written (chat_events df) = None.
Proof.
  unfold chat_events. destruct (axis_empty df); [reflexivity | apply written_chats].
Qed.

Lemma written_sent (inp : str) (df : frame) :
  written (EvReadCsv inp :: chat_events df) = None.
Proof. cbn [written]. rewrite written_chat_events. reflexivity. Qed.

Lemma calls_chats (ps : list row) :
  calls (map (fun r => EvChat (row_prompt r)) ps) = length ps.
Proof.
  unfold calls. induction ps as [|p t IH]; cbn [map filter is_chat length]; [|rewrite IH];
    reflexivity.
Qed.

Lemma rows_length (df : frame) : length (rows df) = nrows df.
Proof. unfold rows. rewrite length_map, length_seq. reflexivity. Qed.

(** *** The expanded results *)

Lemma lookup_in_keys {A : Type} (k : str) (d : list (str * A)) :
  In k (map fst d) <-> lookup k d <> None.
Proof.
  induction d as [|[k0 v] t IH]; cbn [map fst lookup In].
  - split; [intros [] | intros H; apply H; reflexivity].
  - destruct (str_eqb k k0) eqn:E.
    + apply str_eqb_eq in E. subst k0. split; [discriminate | auto].
    + rewrite <- IH. split; [intros [->|H]; [|exact H] | auto].
      rewrite str_eqb_refl in E. discriminate.
Qed.

Lemma in_fold_add_key (k : str) (l acc : list str) :
  In k (fold_left add_key l acc) <-> In k acc \/ In k l.
Proof.
  revert acc. induction l as [|x l IH]; intros acc; cbn [fold_left In].
  - tauto.
  - rewrite IH. unfold add_key.
    destruct (in_dec str_eq_dec x acc) as [i|n].
    + split; [tauto|]. intros [H|[->|H]]; auto.
    + rewrite in_app_iff. cbn [In]. tauto.
Qed.

Lemma in_keys_of (k : str) (ds : list dict) :
  In k (keys_of ds) <-> has_key k ds = true.
Proof.
  unfold keys_of, has_key. rewrite in_fold_add_key, in_flat_map, existsb_exists.
  cbn [In]. split.
  - intros [[]|(d & Hd & Hk)]. exists d. split; [exact Hd|].
    apply lookup_in_keys in Hk. destruct (lookup k d); [reflexivity | contradiction].
  - intros (d & Hd & Hk). right. exists d. split; [exact Hd|].
    apply lookup_in_keys. destruct (lookup k d); discriminate.
Qed.

Lemma lookup_tabulate {A : Type} (f : str -> A) (k : str) (l : list str) :
  lookup k (map (fun x => (x, f x)) l)
  = if in_dec str_eq_dec k l then Some (f k) else None.
Proof.
  induction l as [|x l IH]; cbn [map lookup].
  - reflexivity.
  - destruct (str_eqb k x) eqn:E.
    + apply str_eqb_eq in E. subst x.
      destruct (in_dec str_eq_dec k (k :: l)) as [_|n]; [reflexivity|].
      exfalso. apply n. left. reflexivity.
    + rewrite IH.
      destruct (in_dec str_eq_dec k l) as [i|n];
        destruct (in_dec str_eq_dec k (x :: l)) as [j|m]; try reflexivity.
      * exfalso. apply m. right. exact i.
      * exfalso. destruct j as [->|j]; [|exact (n j)].
        rewrite str_eqb_refl in E. discriminate.
Qed.

Lemma lookup_frame_of_dicts (k : str) (ds : list dict) :
  lookup k (cols (frame_of_dicts ds))
  = if has_key k ds then Some (dict_column k ds) else None.
Proof.
  unfold frame_of_dicts. cbn [cols]. rewrite lookup_tabulate.
  destruct (in_dec str_eq_dec k (keys_of ds)) as [i|n].
  - apply in_keys_of in i. rewrite i. reflexivity.
  - destruct (has_key k ds) eqn:E; [|reflexivity].
    apply in_keys_of in E. contradiction.
Qed.

Lemma nth_dict_column (k : str) (ds : list dict) (i : nat) :
  nth i (dict_column k ds) NaN = field k (nth i ds []).
Proof.
  unfold dict_column. fold (field k).
  change NaN with (field k []). apply map_nth.
Qed.

Lemma dict_column_length (k : str) (ds : list dict) :
  length (dict_column k ds) = length ds.
Proof. apply length_map. Qed.

Lemma as_dicts_length (vs : list pyvalue) (ds : list dict) :
  as_dicts vs = Some ds -> length ds = length vs.
Proof.
  revert ds. induction vs as [|[d|] vs IH]; intros ds; cbn [as_dicts].
  - intros [= <-]. reflexivity.
  - destruct (as_dicts vs) as [ds'|]; [|discriminate].
    intros [= <-]. cbn [length]. f_equal. apply IH. reflexivity.
  - discriminate.
Qed.

Lemma as_dicts_nth (vs : list pyvalue) (ds : list dict) (i : nat) :
  as_dicts vs = Some ds -> i < length vs -> nth i vs NotDict = Dict (nth i ds []).
Proof.
  revert ds i. induction vs as [|[d|] vs IH]; intros ds i; cbn [as_dicts length].
  - intros _ H. inversion H.
  - destruct (as_dicts vs) as [ds'|]; [|discriminate].
    intros [= <-] Hi. destruct i as [|i]; [reflexivity|].
    cbn [nth]. apply IH; [reflexivity | lia].
  - discriminate.
Qed.

Lemma listings_from_length (W : World) (api_key : str) (rs : list row) (n : nat) :
  length (listings_from W api_key n rs) = length rs.
Proof.
  revert n. induction rs as [|r rs IH]; intros n; cbn [listings_from length];
    [|rewrite IH]; reflexivity.
Qed.

Lemma listings_from_nth (W : World) (api_key : str) (rs : list row) (n i : nat) :
  i < length rs ->
  nth i (listings_from W api_key n rs) NotDict = row_listing W api_key (n + i) (nth i rs []).
Proof.
  revert n i. induction rs as [|r rs IH]; intros n i Hi; cbn [length] in Hi.
  - inversion Hi.
  - destruct i as [|i]; cbn [listings_from nth].
    + rewrite Nat.add_0_r. reflexivity.
    + rewrite IH by lia. f_equal. lia.
Qed.

Lemma rows_nth (df : frame) (i : nat) :
  i < nrows df -> nth i (rows df) [] = row_at df i.
Proof.
  intros Hi. unfold rows.
  rewrite (nth_indep _ [] (row_at df 0)) by (rewrite length_map, length_seq; exact Hi).
  rewrite map_nth, seq_nth by exact Hi. reflexivity.
Qed.

(** *** The merged frame *)

Section Merged.

Variables (df : frame) (c1 c2 c3 : list cell).

Local Abbreviation out := (merged df c1 c2 c3).

Lemma merged_title : lookup (py "Formatted Title") (cols out) = Some (reindex (nrows df) c1).
Proof.
  unfold merged. rewrite !lookup_setitem_other by names_differ.
  apply lookup_setitem_same.
Qed.

Lemma merged_html : lookup (py "HTML Description") (cols out) = Some (reindex (nrows df) c2).
Proof.
  unfold merged. rewrite lookup_setitem_other by names_differ.
  rewrite lookup_setitem_same. reflexivity.
Qed.

Lemma merged_seo : lookup (py "SEO Description") (cols out) = Some (reindex (nrows df) c3).
Proof. unfold merged. rewrite lookup_setitem_same. reflexivity. Qed.

Lemma merged_other (k : str) :
  k <> py "Formatted Title" -> k <> py "HTML Description" -> k <> py "SEO Description" ->
  lookup k (cols out) = lookup k (cols df).
Proof.
  intros H1 H2 H3. unfold merged.
  rewrite !lookup_setitem_other by congruence. reflexivity.
Qed.

Lemma merged_wf : wf_frame df -> wf_frame out.
Proof. intros H. unfold merged. apply setitem_wf, setitem_wf, setitem_wf, H. Qed.

Lemma merged_columns :
  columns out
  = add_key (add_key (add_key (columns df) (py "Formatted Title"))
                     (py "HTML Description")) (py "SEO Description").
Proof. unfold merged. rewrite !columns_setitem. reflexivity. Qed.

End Merged.

Lemma nth_map_cell (f : cell -> cell) (l : list cell) (i : nat) :
  i < length l -> nth i (map f l) NaN = f (nth i l NaN).
Proof.
  intros Hi. rewrite (nth_indep _ NaN (f NaN)) by (rewrite length_map; exact Hi).
  apply map_nth.
Qed.

Lemma axis_nonempty (U : UnicodeCase) (df : frame) (rt rd : list cell) :
  0 < nrows df -> axis_empty (normalised U df rt rd) = false.
Proof.
  intros Hn. unfold axis_empty. rewrite normalised_nrows.
  apply orb_false_iff. split.
  - apply Nat.eqb_neq. lia.
  - pose proof (normalised_clean_desc U df rt rd) as H.
    destruct (cols (normalised U df rt rd)); [discriminate | reflexivity].
Qed.

(** The cleaned cells of row [i], and the value returned for it. *)
Lemma normalised_row (W : World) (api_key : str) (df : frame) (rt rd : list cell) (i : nat) :
  wf_frame df ->
  lookup (py "RawTitle") (cols df) = Some rt ->
  lookup (py "RawDescription") (cols df) = Some rd ->
  i < nrows df ->
  let r := row_at (normalised (unicode W) df rt rd) i in
  lookup (py "clean_title") r = Some (clean_title_cell (unicode W) (nth i rt NaN))
  /\ lookup (py "clean_desc") r = Some (clean_desc_cell (nth i rd NaN))
  /\ row_listing W api_key i r
     = listing W api_key i (clean_title_cell (unicode W) (nth i rt NaN))
               (clean_desc_cell (nth i rd NaN)).
Proof.
  intros Hwf Hrt Hrd Hi r.
  pose proof (wf_column_length _ Hwf Hrt) as Lrt.
  pose proof (wf_column_length _ Hwf Hrd) as Lrd.
  assert (Ht : lookup (py "clean_title") r
               = Some (clean_title_cell (unicode W) (nth i rt NaN))).
  { unfold r. rewrite lookup_row_at, normalised_clean_title. cbn [option_map].
    rewrite reindex_id by (rewrite length_map; exact Lrt).
    rewrite nth_map_cell by lia. reflexivity. }
  assert (Hd : lookup (py "clean_desc") r = Some (clean_desc_cell (nth i rd NaN))).
  { unfold r. rewrite lookup_row_at, normalised_clean_desc. cbn [option_map].
    rewrite reindex_id by (rewrite length_map; exact Lrd).
    rewrite nth_map_cell by lia. reflexivity. }
  split; [exact Ht | split; [exact Hd|]].
  unfold row_listing. rewrite Ht, Hd. reflexivity.
Qed.

(** A run over a table with rows in which every row returned a dict and
    each of the three keys occurs in some dict ends normally. *)
Lemma main_completes (W : World) (inp outp api_key : str) (df : frame)
      (rt rd : list cell) (ds : list dict) :
  csv_at W inp = Returns df ->
  lookup (py "RawTitle") (cols df) = Some rt ->
  lookup (py "RawDescription") (cols df) = Some rd ->
  0 < nrows df ->
  as_dicts (listings_from W api_key 0 (rows (normalised (unicode W) df rt rd))) = Some ds ->
  has_key (py "title") ds = true ->
  has_key (py "html_description") ds = true ->
  has_key (py "seo_description") ds = true ->
  main W inp outp api_key []
  = (Ok tt,
     (EvReadCsv inp :: chat_events (normalised (unicode W) df rt rd))
       ++ [EvWriteCsv outp
             (merged (normalised (unicode W) df rt rd)
                     (dict_column (py "title") ds)
                     (dict_column (py "html_description") ds)
                     (dict_column (py "seo_description") ds));
           EvPrint (py "Saved formatted deals to " ++ outp)]).
Proof.
  intros Hcsv Hrt Hrd Hn Hds H1 H2 H3.
  rewrite main_outcome. unfold outcome. rewrite Hcsv, Hrt, Hrd. cbv zeta.
  unfold expanded. rewrite axis_nonempty by exact Hn. rewrite Hds. cbn [option_map].
  rewrite !lookup_frame_of_dicts, H1, H2, H3. reflexivity.
Qed.

(** What a run that wrote a frame went through. *)
Lemma main_written (W : World) (inp outp api_key : str) (out : frame) :
  written (snd (main W inp outp api_key [])) = Some out ->
  exists df rt rd results c1 c2 c3,
    csv_at W inp = Returns df
    /\ lookup (py "RawTitle") (cols df) = Some rt
    /\ lookup (py "RawDescription") (cols df) = Some rd
    /\ expanded W api_key (normalised (unicode W) df rt rd) = Some results
    /\ lookup (py "title") (cols results) = Some c1
    /\ lookup (py "html_description") (cols results) = Some c2
    /\ lookup (py "seo_description") (cols results) = Some c3
    /\ out = merged (normalised (unicode W) df rt rd) c1 c2 c3.
Proof.
  rewrite main_outcome. unfold outcome.
  destruct (csv_at W inp) as [df|msg]; [|discriminate].
  destruct (lookup (py "RawTitle") (cols df)) as [rt|] eqn:Ert; [|discriminate].
  destruct (lookup (py "RawDescription") (cols df)) as [rd|] eqn:Erd; [|discriminate].
  cbv zeta.
  destruct (expanded W api_key (normalised (unicode W) df rt rd)) as [results|] eqn:Ex;
    [|cbn [snd]; rewrite written_sent; discriminate].
  destruct (lookup (py "title") (cols results)) as [c1|] eqn:E1;
    [|cbn [snd]; rewrite written_sent; discriminate].
  destruct (lookup (py "html_description") (cols results)) as [c2|] eqn:E2;
    [|cbn [snd]; rewrite written_sent; discriminate].
  destruct (lookup (py "seo_description") (cols results)) as [c3|] eqn:E3;
    [|cbn [snd]; rewrite written_sent; discriminate].
  cbn [snd]. rewrite written_app. cbn [written]. intros [= <-].
  exists df, rt, rd, results, c1, c2, c3. repeat split; assumption.
Qed.

(** The same for a table with rows: the frame written holds the three
    members of the dicts returned. *)
Lemma main_written_rows (W : World) (inp outp api_key : str) (df : frame)
      (rt rd : list cell) (out : frame) :
  csv_at W inp = Returns df ->
  lookup (py "RawTitle") (cols df) = Some rt ->
  lookup (py "RawDescription") (cols df) = Some rd ->
  0 < nrows df ->
  written (snd (main W inp outp api_key [])) = Some out ->
  exists ds,
    as_dicts (listings_from W api_key 0 (rows (normalised (unicode W) df rt rd))) = Some ds
    /\ out = merged (normalised (unicode W) df rt rd)
                    (dict_column (py "title") ds)
                    (dict_column (py "html_description") ds)
                    (dict_column (py "seo_description") ds).
Proof.
  intros Hcsv Hrt Hrd Hn Hw.
  destruct (main_written _ _ _ _ Hw)
    as (df' & rt' & rd' & results & c1 & c2 & c3 & E & Ert & Erd & Ex & E1 & E2 & E3 & ->).
  rewrite Hcsv in E. injection E as <-.
  rewrite Hrt in Ert. injection Ert as <-.
  rewrite Hrd in Erd. injection Erd as <-.
  unfold expanded in Ex. rewrite axis_nonempty in Ex by exact Hn.
  destruct (as_dicts _) as [ds|]; [|discriminate].
  cbn [option_map] in Ex. injection Ex as <-.
  rewrite lookup_frame_of_dicts in E1, E2, E3.
  destruct (has_key (py "title") ds); [|discriminate].
  destruct (has_key (py "html_description") ds); [|discriminate].
  destruct (has_key (py "seo_description") ds); [|discriminate].
  injection E1 as <-. injection E2 as <-. injection E3 as <-.
  exists ds. split; reflexivity.
Qed.

(** *** Missing credential *)

(** C8. With no [--api-key] and no [OPENAI_API_KEY], the process ends
    with [SystemExit] and its message, exit status 1, and an empty log: no
    file was read or written and no remote call was made. *)
Theorem missing_key_exits (W : World) (inp outp : str) :
  script W {| input_csv := inp; output_csv := outp; opt_api_key := None |} None []
  = (Raise (SystemExit key_required), [])
  /\ exit_status
       (fst (script W {| input_csv := inp; output_csv := outp; opt_api_key := None |}
                    None []))
     = Some 1.
Proof. split; reflexivity. Qed.

(** *** The empty table *)

(** C3, what the code does.  On a table with no data row and no column
    named [title], [df.apply] returns the frame itself, so that reading
    [results["title"]] raises [KeyError]: nothing is written, and no remote
    call is made. *)
Theorem main_empty_table_raises (W : World) (inp outp api_key : str) (df : frame)
        (rt rd : list cell) :
  csv_at W inp = Returns df ->
  nrows df = 0 ->
  lookup (py "RawTitle") (cols df) = Some rt ->
  lookup (py "RawDescription") (cols df) = Some rd ->
  lookup (py "title") (cols df) = None ->
  main W inp outp api_key [] = (Raise (KeyError (py "title")), [EvReadCsv inp]).
Proof.
  intros Hcsv Hn Hrt Hrd Ht. rewrite main_outcome. unfold outcome.
  rewrite Hcsv, Hrt, Hrd. cbv zeta.
  assert (He : axis_empty (normalised (unicode W) df rt rd) = true).
  { unfold axis_empty. rewrite normalised_nrows, Hn. reflexivity. }
  unfold expanded, chat_events. rewrite He.
  rewrite normalised_other by names_differ. rewrite Ht. reflexivity.
Qed.

Lemma main_empty_table_raises_witness :
  main (stub_world no_deals []) (py "in.csv") (py "out.csv") (py "sk-demo") []
  = (Raise (KeyError (py "title")), [EvReadCsv (py "in.csv")]).
Proof.
  apply (@main_empty_table_raises (stub_world no_deals []) (py "in.csv") (py "out.csv")
           (py "sk-demo") no_deals [] []); reflexivity.
Defined.

(** *** Rows in, rows out *)

Lemma calls_app (a b : log) : calls (a ++ b) = calls a + calls b.
Proof. unfold calls. rewrite filter_app, length_app. reflexivity. Qed.

Lemma not_output_name (k : str) :
  ~ In k output_names ->
  k <> py "clean_title" /\ k <> py "clean_desc" /\ k <> py "Formatted Title"
  /\ k <> py "HTML Description" /\ k <> py "SEO Description".
Proof.
  intros H. unfold output_names in H. cbn [In] in H.
  repeat split; intros ->; apply H; tauto.
Qed.

(** C4, as the code has it.  For a table with at least one row, when every
    row's generation returned a dict (parsed or fallback) and each of the
    three keys occurs in at least one of them, [main] ends normally after
    one remote call per row and writes a frame with the rows of the input,
    in their order: row [i] of the output has the cells of row [i] of the
    input, its cleaned title and description, and the three members of
    the dict returned for row [i] ([NaN] for a member it lacks). *)
Theorem main_rows_preserved (W : World) (inp outp api_key : str) (df : frame)
        (rt rd : list cell) (ds : list dict) :
  csv_at W inp = Returns df ->
  wf_frame df ->
  0 < nrows df ->
  lookup (py "RawTitle") (cols df) = Some rt ->
  lookup (py "RawDescription") (cols df) = Some rd ->
  as_dicts (listings_from W api_key 0 (rows (normalised (unicode W) df rt rd))) = Some ds ->
  has_key (py "title") ds = true ->
  has_key (py "html_description") ds = true ->
  has_key (py "seo_description") ds = true ->
  exists out st,
    main W inp outp api_key [] = (Ok tt, st)
    /\ written st = Some out
    /\ calls st = nrows df
    /\ wf_frame out
    /\ nrows out = nrows df
    /\ length (rows out) = length (rows df)
    /\ forall i, i < nrows df ->
         (forall k, ~ In k output_names ->
                    lookup k (row_at out i) = lookup k (row_at df i))
         /\ lookup (py "clean_title") (row_at out i)
            = Some (clean_title_cell (unicode W) (nth i rt NaN))
         /\ lookup (py "clean_desc") (row_at out i)
            = Some (clean_desc_cell (nth i rd NaN))
         /\ lookup (py "Formatted Title") (row_at out i)
            = Some (field (py "title") (nth i ds []))
         /\ lookup (py "HTML Description") (row_at out i)
            = Some (field (py "html_description") (nth i ds []))
         /\ lookup (py "SEO Description") (row_at out i)
            = Some (field (py "seo_description") (nth i ds [])).
Proof.
  intros Hcsv Hwf Hn Hrt Hrd Hds H1 H2 H3.
  set (df2 := normalised (unicode W) df rt rd) in *.
  assert (Lds : length ds = nrows df2).
  { rewrite (as_dicts_length _ Hds), listings_from_length. apply rows_length. }
  eexists. eexists. split; [apply (main_completes W inp outp api_key Hcsv Hrt Hrd Hn Hds H1 H2 H3)|].
  fold df2. split; [rewrite written_app; reflexivity|].
  split.
  { rewrite calls_app. cbn [app]. unfold chat_events, df2.
    rewrite axis_nonempty by exact Hn.
    change (calls (EvReadCsv inp :: ?l)) with (calls l).
    rewrite calls_chats, rows_length. cbn. rewrite Nat.add_0_r. reflexivity. }
  split; [apply merged_wf, normalised_wf, Hwf|].
  split; [reflexivity|].
  split; [rewrite !rows_length; reflexivity|].
  intros i Hi.
  destruct (normalised_row W api_key Hwf Hrt Hrd Hi) as (Hct & Hcd & _).
  fold df2 in Hct, Hcd. rewrite lookup_row_at in Hct, Hcd.
  rewrite !lookup_row_at.
  rewrite merged_title, merged_html, merged_seo.
  rewrite !(merged_other df2) by names_differ.
  rewrite !reindex_id by (rewrite dict_column_length; exact Lds).
  cbn [option_map]. rewrite !nth_dict_column.
  repeat split; try assumption.
  intros k Hk. destruct (not_output_name Hk) as (K1 & K2 & K3 & K4 & K5).
  rewrite !lookup_row_at, merged_other by assumption.
  unfold df2. rewrite normalised_other by assumption. reflexivity.
Qed.

Lemma two_deals_wf : wf_frame two_deals.
Proof.
  split.
  - repeat constructor.
  - repeat constructor; cbn [In]; [|tauto].
    intros [H|[]]. vm_compute in H. discriminate H.
Qed.

Lemma main_rows_preserved_witness :
  exists out st,
    main demo_world (py "in.csv") (py "out.csv") (py "sk-demo") [] = (Ok tt, st)
    /\ written st = Some out
    /\ calls st = 2
    /\ length (rows out) = length (rows two_deals).
Proof.
  destruct (@main_rows_preserved demo_world (py "in.csv") (py "out.csv") (py "sk-demo")
              two_deals
              [Str (py "  wireless   mouse  "); Str (py "3d tv")]
              [Str (py "Great   for   travel." ++ nl ++ nl ++ py "Compact."); NaN]
              demo_dicts eq_refl two_deals_wf (le_S _ _ (le_n 1)) eq_refl eq_refl
              eq_refl eq_refl eq_refl eq_refl)
    as (out & st & Hrun & Hw & Hc & _ & _ & Hlen & _).
  exists out, st. repeat split; assumption.
Defined.

(** C4 as stated fails: a table with one row whose reply is the JSON
    object [{}] has no output row, because [results["title"]] raises
    [KeyError] and nothing is written. *)
Lemma main_writes_nothing_on_empty_object :
  nrows one_deal = 1
  /\ fst (main (stub_world one_deal [Returns (py "{}")])
               (py "in.csv") (py "out.csv") (py "sk-demo") [])
     = Raise (KeyError (py "title"))
  /\ written (snd (main (stub_world one_deal [Returns (py "{}")])
                        (py "in.csv") (py "out.csv") (py "sk-demo") []))
     = None.
Proof. repeat split; vm_compute; reflexivity. Qed.

(** *** Parsed replies *)

(** C5, as the code has it.  For a row whose reply parses to a dict with
    string values under the three keys, every frame [main] writes has
    exactly these strings in the row's three output columns; and [main]
    does write a frame as soon as every other row returned a dict too. *)
Theorem parsed_reply_verbatim (W : World) (inp outp api_key : str) (df : frame)
        (rt rd : list cell) (i : nat) (content : str) (d : dict) (t h s : str) :
  csv_at W inp = Returns df ->
  wf_frame df ->
  lookup (py "RawTitle") (cols df) = Some rt ->
  lookup (py "RawDescription") (cols df) = Some rd ->
  i < nrows df ->
  openai_reply W api_key i
    (build_prompt (clean_title (unicode W) (py_str (nth i rt NaN)))
                  (clean_desc (py_str (nth i rd NaN))))
  = Returns content ->
  json_loads W (strip content) = Returns (Dict d) ->
  lookup (py "title") d = Some (Str t) ->
  lookup (py "html_description") d = Some (Str h) ->
  lookup (py "seo_description") d = Some (Str s) ->
  (forall out,
      written (snd (main W inp outp api_key [])) = Some out ->
      lookup (py "Formatted Title") (row_at out i) = Some (Str t)
      /\ lookup (py "HTML Description") (row_at out i) = Some (Str h)
      /\ lookup (py "SEO Description") (row_at out i) = Some (Str s))
  /\ (as_dicts (listings_from W api_key 0 (rows (normalised (unicode W) df rt rd)))
      <> None ->
      exists out, written (snd (main W inp outp api_key [])) = Some out).
Proof.
  intros Hcsv Hwf Hrt Hrd Hi Hreply Hjson Ht Hh Hs.
  set (df2 := normalised (unicode W) df rt rd).
  assert (Hn : 0 < nrows df) by lia.
  assert (Hrow : forall ds,
             as_dicts (listings_from W api_key 0 (rows df2)) = Some ds ->
             nth i ds [] = d /\ length ds = nrows df2).
  { intros ds Hds.
    assert (Lds : length ds = nrows df2).
    { rewrite (as_dicts_length _ Hds), listings_from_length. apply rows_length. }
    split; [|exact Lds].
    assert (E : Dict (nth i ds []) = Dict d); [|injection E; trivial].
    rewrite <- (as_dicts_nth _ Hds)
      by (rewrite listings_from_length, rows_length; exact Hi).
    rewrite listings_from_nth by (rewrite rows_length; exact Hi).
    rewrite rows_nth by exact Hi. cbn [Nat.add].
    destruct (normalised_row W api_key Hwf Hrt Hrd Hi) as (_ & _ & Hl).
    fold df2 in Hl. rewrite Hl.
    unfold listing, clean_title_cell, clean_desc_cell. cbn [py_str].
    rewrite Hreply. cbn [attempt_bind]. rewrite Hjson. reflexivity. }
  split.
  - intros out Hw.
    destruct (main_written_rows W inp outp api_key Hcsv Hrt Hrd Hn Hw) as (ds & Hds & ->).
    fold df2 in Hds |- *. destruct (Hrow ds Hds) as [Hd Lds].
    rewrite !lookup_row_at, merged_title, merged_html, merged_seo.
    rewrite !reindex_id by (rewrite dict_column_length; exact Lds).
    cbn [option_map]. rewrite !nth_dict_column, Hd. unfold field.
    rewrite Ht, Hh, Hs. repeat split.
  - intros Hall. fold df2 in Hall.
    destruct (as_dicts (listings_from W api_key 0 (rows df2))) as [ds|] eqn:Hds;
      [|contradiction].
    destruct (Hrow ds eq_refl) as [Hd Lds].
    assert (Hin : In d ds).
    { rewrite <- Hd. apply nth_In. rewrite Lds. exact Hi. }
    assert (Hkey : forall k v, lookup k d = Some v -> has_key k ds = true).
    { intros k v Hk. unfold has_key. apply existsb_exists.
      exists d. rewrite Hk. split; [exact Hin | reflexivity]. }
    eexists.
    rewrite (main_completes W inp outp api_key Hcsv Hrt Hrd Hn Hds
               (Hkey _ _ Ht) (Hkey _ _ Hh) (Hkey _ _ Hs)).
    cbn [snd]. rewrite written_app. reflexivity.
Qed.

Lemma parsed_reply_verbatim_witness :
  exists out,
    written (snd (main demo_world (py "in.csv") (py "out.csv") (py "sk-demo") []))
    = Some out
    /\ lookup (py "Formatted Title") (row_at out 0) = Some (Str (py "Travel Mouse"))
    /\ lookup (py "HTML Description") (row_at out 0) = Some (Str (py "<h2>Mouse</h2>"))
    /\ lookup (py "SEO Description") (row_at out 0)
       = Some (Str (py "A compact wireless mouse.")).
Proof.
  destruct (@parsed_reply_verbatim demo_world (py "in.csv") (py "out.csv") (py "sk-demo")
              two_deals
              [Str (py "  wireless   mouse  "); Str (py "3d tv")]
              [Str (py "Great   for   travel." ++ nl ++ nl ++ py "Compact."); NaN]
              0 good_reply good_dict
              (py "Travel Mouse") (py "<h2>Mouse</h2>") (py "A compact wireless mouse.")
              eq_refl two_deals_wf eq_refl eq_refl (le_S _ _ (le_n 1))
              eq_refl eq_refl eq_refl eq_refl eq_refl)
    as [Hcells Hruns].
  destruct Hruns as [out Hw]; [vm_compute; discriminate|].
  exists out. split; [exact Hw | exact (Hcells out Hw)].
Defined.

(** C5 as stated fails: the second row's reply parses to a dict with the
    three keys, but the first row's reply is the JSON array [[1, 2]];
    [df.apply] then has a list beside a dict to expand, which pandas
    refuses, and no frame is written: the parsed strings appear in no
    output column. *)
Lemma parsed_row_lost_beside_array_reply :
  openai_reply array_first_world (py "sk-demo") 1
    (build_prompt (clean_title ascii_case (py "3d tv")) (clean_desc (py "nan")))
  = Returns good_reply
  /\ json_loads array_first_world (strip good_reply) = Returns (Dict good_dict)
  /\ lookup (py "title") good_dict = Some (Str (py "Travel Mouse"))
  /\ lookup (py "html_description") good_dict = Some (Str (py "<h2>Mouse</h2>"))
  /\ lookup (py "seo_description") good_dict
     = Some (Str (py "A compact wireless mouse."))
  /\ fst (main array_first_world (py "in.csv") (py "out.csv") (py "sk-demo") [])
     <> Ok tt
  /\ written (snd (main array_first_world (py "in.csv") (py "out.csv")
                        (py "sk-demo") []))
     = None.
Proof.
  repeat split; try (vm_compute; reflexivity).
  vm_compute. discriminate.
Qed.

(** *** The columns of the output *)





(** *** What the driver reads of a result *)

Lemma listings_from_agree (W W' : World) (api_key : str) (rs : list row) (n : nat) :
  same_three_fields W W' ->
  Forall2 agree (listings_from W api_key n rs) (listings_from W' api_key n rs).
Proof.
  intros H. revert n. induction rs as [|r rs IH]; intros n; cbn [listings_from].
  - constructor.
  - constructor; [|apply IH]. unfold agree, row_listing.
    destruct (lookup (py "clean_title") r); [|reflexivity].
    destruct (lookup (py "clean_desc") r); [|reflexivity].
    apply (same_fields H).
Qed.

Lemma as_dicts_agree (vs vs' : list pyvalue) :
  Forall2 agree vs vs' ->
  match as_dicts vs, as_dicts vs' with
  | Some ds, Some ds' => Forall2 agree_dict ds ds'
  | None, None => True
  | _, _ => False
  end.
Proof.
  induction 1 as [|v v' vs vs' Hv Hvs IH]; cbn [as_dicts].
  - constructor.
  - unfold agree in Hv.
    destruct v as [d|], v' as [d'|]; cbn [three_fields] in Hv; try discriminate Hv;
      [|exact I].
    destruct (as_dicts vs) as [ds|], (as_dicts vs') as [ds'|]; try exact IH.
    constructor; [|exact IH]. injection Hv as E1 E2 E3. repeat split; assumption.
Qed.

Lemma column_agree (k : str) (ds ds' : list dict) :
  Forall2 (fun d d' => lookup k d = lookup k d') ds ds' ->
  lookup k (cols (frame_of_dicts ds)) = lookup k (cols (frame_of_dicts ds')).
Proof.
  intros H. rewrite !lookup_frame_of_dicts.
  assert (E : has_key k ds = has_key k ds' /\ dict_column k ds = dict_column k ds').
  { induction H as [|d d' ds ds' Hd Hds [IH1 IH2]]; [split; reflexivity|].
    cbn [has_key existsb dict_column map]. fold (has_key k ds) (has_key k ds').
    fold (dict_column k ds) (dict_column k ds'). rewrite Hd, IH1, IH2.
    split; reflexivity. }
  destruct E as [-> ->]. reflexivity.
Qed.

Lemma expanded_agree (W W' : World) (api_key : str) (df : frame) :
  same_three_fields W W' ->
  match expanded W api_key df, expanded W' api_key df with
  | Some r, Some r' =>
      lookup (py "title") (cols r) = lookup (py "title") (cols r')
      /\ lookup (py "html_description") (cols r) = lookup (py "html_description") (cols r')
      /\ lookup (py "seo_description") (cols r) = lookup (py "seo_description") (cols r')
  | None, None => True
  | _, _ => False
  end.
Proof.
  intros H. unfold expanded. destruct (axis_empty df); [repeat split|].
  pose proof (as_dicts_agree (listings_from_agree api_key (rows df) 0 H)) as Hd.
  destruct (as_dicts (listings_from W api_key 0 (rows df))) as [ds|],
           (as_dicts (listings_from W' api_key 0 (rows df))) as [ds'|];
    cbn [option_map]; try exact Hd.
  repeat split; apply column_agree;
    (eapply Forall2_impl; [|exact Hd]); intros d d' (E1 & E2 & E3); assumption.
Qed.

(** C10. The run of [main] depends on the generation results through
    their [title], [html_description] and [seo_description] members only:
    two worlds whose results agree on these three members, whatever else
    the results hold ([error] in the fallback, any further key of a
    reply), give the same outcome, the same calls and the same frame
    written.  In particular the text of an exception never reaches the
    output. *)
Theorem output_reads_three_fields (W W' : World) (inp outp api_key : str) :
  same_three_fields W W' ->
  main W inp outp api_key [] = main W' inp outp api_key [].
Proof.
  intros H. rewrite !main_outcome. unfold outcome.
  rewrite <- (same_csv H), <- (same_unicode H).
  destruct (csv_at W inp) as [df|msg]; [|reflexivity].
  destruct (lookup (py "RawTitle") (cols df)) as [rt|]; [|reflexivity].
  destruct (lookup (py "RawDescription") (cols df)) as [rd|]; [|reflexivity].
  cbv zeta.
  pose proof (expanded_agree api_key (normalised (unicode W) df rt rd) H) as He.
  destruct (expanded W api_key (normalised (unicode W) df rt rd)) as [r|],
           (expanded W' api_key (normalised (unicode W) df rt rd)) as [r'|];
    try contradiction; [|reflexivity].
  destruct He as (<- & <- & <-). reflexivity.
Qed.

Lemma demo_worlds_agree : same_three_fields demo_world demo_world_other_error.
Proof.
  constructor; [reflexivity | reflexivity |].
  intros api_key n t d. destruct n as [|[|n]]; [reflexivity | reflexivity |].
  unfold listing, demo_world, demo_world_other_error, stub_world. cbn [openai_reply nth].
  destruct n; reflexivity.
Qed.

Lemma output_reads_three_fields_witness :
  main demo_world (py "in.csv") (py "out.csv") (py "sk-demo") []
  = main demo_world_other_error (py "in.csv") (py "out.csv") (py "sk-demo") [].
Proof.
  apply (@output_reads_three_fields demo_world demo_world_other_error
           (py "in.csv") (py "out.csv") (py "sk-demo") demo_worlds_agree).
Defined.

(** * Further properties of the script *)

(** ** The normaliser *)

Lemma lstrip_id (s : str) : leading_ws s = false -> lstrip s = s.
Proof. destruct s as [|c t]; cbn [leading_ws lstrip]; [trivial | intros ->; reflexivity]. Qed.

Lemma strip_id (s : str) :
  leading_ws s = false -> trailing_ws s = false -> strip s = s.
Proof.
  intros Hl Ht. unfold strip, rstrip. rewrite (lstrip_id s Hl).
  unfold trailing_ws in Ht. rewrite (lstrip_id _ Ht). apply rev_involutive.
Qed.

Lemma sub_ws_spaces (s : str) (in_run : bool) : ws_are_spaces (sub_ws in_run s) = true.
Proof.
  revert in_run. induction s as [|c t IH]; intros in_run; cbn [sub_ws]; [reflexivity|].
  destruct (isspace c) eqn:E.
  - destruct in_run; [apply IH|]. unfold ws_are_spaces. cbn [forallb].
    rewrite N.eqb_refl, orb_true_r. apply IH.
  - unfold ws_are_spaces. cbn [forallb]. rewrite E. apply IH.
Qed.

Lemma strip_spaces (s : str) : ws_are_spaces s = true -> ws_are_spaces (strip s) = true.
Proof.
  destruct (strip_infix s) as (pre & post & E). intros H. rewrite E in H.
  unfold ws_are_spaces in *. rewrite !forallb_app in H.
  apply andb_true_iff in H. destruct H as [_ H].
  apply andb_true_iff in H. apply H.
Qed.

Lemma clean_desc_tidy (raw : str) : tidy (clean_desc raw) = true.
Proof.
  unfold tidy, clean_desc, replace_ws.
  rewrite (strip_adjacent _ (proj1 (sub_ws_adjacent raw false))).
  rewrite (strip_spaces _ (sub_ws_spaces raw false)).
  rewrite strip_leading, strip_trailing. reflexivity.
Qed.

Lemma sub_ws_id (s : str) :
  adjacent_ws s = false -> ws_are_spaces s = true ->
  forall in_run, (in_run = true -> leading_ws s = false) -> sub_ws in_run s = s.
Proof.
  induction s as [|c t IH]; intros Hadj Hsp in_run Hrun; [reflexivity|].
  cbn [adjacent_ws] in Hadj. apply orb_false_iff in Hadj. destruct Hadj as [Hhead Hadj].
  unfold ws_are_spaces in Hsp. cbn [forallb] in Hsp.
  apply andb_true_iff in Hsp. destruct Hsp as [Hc Hsp].
  cbn [sub_ws]. destruct (isspace c) eqn:E.
  - destruct in_run; [specialize (Hrun eq_refl); cbn in Hrun; congruence|].
    cbn [negb orb] in Hc. apply N.eqb_eq in Hc.
    assert (Ht : leading_ws t = false).
    { destruct t as [|c2 t']; [reflexivity|]. cbn [leading_ws].
      exact Hhead. }
    subst c. f_equal. apply IH; [exact Hadj | exact Hsp | intros _; exact Ht].
  - f_equal. apply IH; [exact Hadj | exact Hsp | discriminate].
Qed.

(** X1. Every whitespace character of a cleaned description is the space
    U+0020: tabs, line breaks and no-break spaces of the raw text never
    survive. *)
Theorem clean_desc_only_spaces (raw : str) :
  ws_are_spaces (clean_desc raw) = true
  /\ forall c, In c (clean_desc raw) -> isspace c = true -> c = space.
Proof.
  assert (H : ws_are_spaces (clean_desc raw) = true).
  { unfold clean_desc. apply strip_spaces, sub_ws_spaces. }
  split; [exact H|]. intros c Hin Hc. unfold ws_are_spaces in H.
  rewrite forallb_forall in H. specialize (H c Hin).
  rewrite Hc in H. cbn [negb orb] in H. apply N.eqb_eq, H.
Qed.

(** X2. The description normaliser leaves a string unchanged exactly when
    the string is already normalised (single U+0020 between words, no
    whitespace at either end); so cleaning a cleaned description changes
    nothing. *)
Theorem clean_desc_fixpoints (s : str) :
  (clean_desc s = s <-> tidy s = true)
  /\ clean_desc (clean_desc s) = clean_desc s.
Proof.
  assert (Hfix : forall x, tidy x = true -> clean_desc x = x).
  { intros x Hx. unfold tidy in Hx.
    apply andb_true_iff in Hx. destruct Hx as [Hx Ht].
    apply andb_true_iff in Hx. destruct Hx as [Hx Hl].
    apply andb_true_iff in Hx. destruct Hx as [Ha Hs].
    apply negb_true_iff in Ha, Hl, Ht.
    unfold clean_desc, replace_ws.
    rewrite (sub_ws_id x Ha Hs) by discriminate. apply strip_id; assumption. }
  split; [split|].
  - intros E. rewrite <- E. apply clean_desc_tidy.
  - apply Hfix.
  - apply Hfix, clean_desc_tidy.
Qed.

Lemma non_whitespace_sub_ws (s : str) (in_run : bool) :
  non_whitespace (sub_ws in_run s) = non_whitespace s.
Proof.
  unfold non_whitespace. revert in_run.
  induction s as [|c t IH]; intros in_run; cbn [sub_ws filter]; [reflexivity|].
  destruct (isspace c) eqn:E; cbn [negb].
  - destruct in_run; [apply IH|]. cbn [filter]. rewrite isspace_space. apply IH.
  - cbn [filter]. rewrite E. cbn [negb]. f_equal. apply IH.
Qed.

Lemma non_whitespace_lstrip (s : str) : non_whitespace (lstrip s) = non_whitespace s.
Proof.
  unfold non_whitespace. induction s as [|c t IH]; cbn [lstrip filter]; [reflexivity|].
  destruct (isspace c) eqn:E; cbn [negb]; [exact IH|].
  cbn [filter]. rewrite E. reflexivity.
Qed.

Lemma non_whitespace_strip (s : str) : non_whitespace (strip s) = non_whitespace s.
Proof.
  unfold strip, rstrip. rewrite <- (non_whitespace_lstrip s).
  unfold non_whitespace at 1. rewrite filter_rev.
  fold (non_whitespace (lstrip (rev (lstrip s)))).
  rewrite non_whitespace_lstrip. unfold non_whitespace.
  rewrite filter_rev. apply rev_involutive.
Qed.

Lemma clean_desc_keeps_text_aux (raw : str) :
  non_whitespace (clean_desc raw) = non_whitespace raw.
Proof.
  unfold clean_desc, replace_ws.
  rewrite non_whitespace_strip. apply non_whitespace_sub_ws.
Qed.

(** X3. Cleaning a description neither drops, nor alters, nor reorders a
    character that is not whitespace. *)
Theorem clean_desc_keeps_text (raw : str) :
  non_whitespace (clean_desc raw) = non_whitespace raw.
Proof. apply clean_desc_keeps_text_aux. Qed.

Lemma non_whitespace_nil (s : str) :
  non_whitespace s = [] <-> forallb isspace s = true.
Proof.
  unfold non_whitespace. induction s as [|c t IH]; cbn [filter forallb]; [tauto|].
  destruct (isspace c); cbn [negb andb]; [exact IH|].
  split; discriminate.
Qed.

Lemma blank_unstripped (s : str) :
  forallb isspace s = true -> leading_ws s = false -> s = [].
Proof.
  destruct s as [|c t]; [reflexivity|]. cbn [forallb leading_ws].
  intros H Hc. rewrite Hc in H. discriminate H.
Qed.

(** X4. A cell normalises to the empty description exactly when it holds
    nothing but whitespace, and such a cell normalises to the empty title
    as well, whatever the case tables. *)
Theorem blank_cells_clean_to_empty (U : UnicodeCase) (raw : str) :
  (clean_desc raw = [] <-> forallb isspace raw = true)
  /\ (forallb isspace raw = true -> clean_title U raw = []).
Proof.
  split; [split|].
  - intros E. apply non_whitespace_nil.
    rewrite <- clean_desc_keeps_text_aux. rewrite E. reflexivity.
  - intros H. apply blank_unstripped.
    + apply non_whitespace_nil. rewrite clean_desc_keeps_text_aux.
      apply non_whitespace_nil, H.
    + unfold clean_desc. apply strip_leading.
  - intros H. unfold clean_title.
    replace (strip raw) with (@nil char); [reflexivity|].
    symmetry. apply blank_unstripped; [|apply strip_leading].
    apply non_whitespace_nil. rewrite non_whitespace_strip.
    apply non_whitespace_nil, H.
Qed.

(** *** Titles of ASCII text *)

Lemma ascii_upper_idem (c : char) : ascii_upper (ascii_upper c) = ascii_upper c.
Proof.
  unfold ascii_upper at 1. rewrite ascii_upper_not_lower. reflexivity.
Qed.

Lemma ascii_lower_not_upper (c : char) : ascii_is_upper (ascii_lower c) = false.
Proof.
  unfold ascii_lower. destruct (ascii_is_upper c) eqn:E; [|exact E].
  apply ascii_is_upper_iff in E.
  destruct (ascii_is_upper (c + 32)%N) eqn:E'; [|reflexivity].
  apply ascii_is_upper_iff in E'. lia.
Qed.

Lemma ascii_lower_idem (c : char) : ascii_lower (ascii_lower c) = ascii_lower c.
Proof.
  unfold ascii_lower at 1. rewrite ascii_lower_not_upper. reflexivity.
Qed.

Lemma ascii_upper_cased (c : char) :
  is_cased ascii_case (ascii_upper c) = is_cased ascii_case c.
Proof.
  cbn [is_cased ascii_case]. unfold ascii_upper.
  destruct (ascii_is_lower c) eqn:E; [|rewrite E; reflexivity].
  rewrite orb_true_r. apply ascii_is_lower_iff in E.
  apply orb_true_iff. left. apply ascii_is_upper_iff. lia.
Qed.

Lemma ascii_lower_cased (c : char) :
  is_cased ascii_case (ascii_lower c) = is_cased ascii_case c.
Proof.
  cbn [is_cased ascii_case]. unfold ascii_lower.
  destruct (ascii_is_upper c) eqn:E; [|rewrite E; reflexivity].
  cbn [orb]. apply ascii_is_upper_iff in E.
  apply orb_true_iff. right. apply ascii_is_lower_iff. lia.
Qed.

Lemma ascii_upper_ascii (c : char) : (c < 128)%N -> (ascii_upper c < 128)%N.
Proof. intros H. unfold ascii_upper. destruct (ascii_is_lower c); lia. Qed.

Lemma ascii_lower_ascii (c : char) : (c < 128)%N -> (ascii_lower c < 128)%N.
Proof.
  intros H. unfold ascii_lower. destruct (ascii_is_upper c) eqn:E; [|exact H].
  apply ascii_is_upper_iff in E. lia.
Qed.

Lemma do_title_ascii_idem (s : str) :
  forall prev data i data' i',
    do_title ascii_case data i prev (do_title ascii_case data' i' prev s)
    = do_title ascii_case data' i' prev s.
Proof.
  induction s as [|c t IH]; intros prev data i data' i'; [reflexivity|].
  cbn [do_title to_lower to_title ascii_case].
  destruct prev; cbn [app do_title to_lower to_title ascii_case].
  - rewrite ascii_lower_idem. f_equal.
    change (ascii_is_upper (ascii_lower c) || ascii_is_lower (ascii_lower c))
      with (is_cased ascii_case (ascii_lower c)).
    rewrite ascii_lower_cased. apply IH.
  - rewrite ascii_upper_idem. f_equal.
    change (ascii_is_upper (ascii_upper c) || ascii_is_lower (ascii_upper c))
      with (is_cased ascii_case (ascii_upper c)).
    rewrite ascii_upper_cased. apply IH.
Qed.

Lemma do_title_ascii_length (s : str) :
  forall prev data i, length (do_title ascii_case data i prev s) = length s.
Proof.
  induction s as [|c t IH]; intros prev data i; [reflexivity|].
  cbn [do_title to_lower to_title ascii_case].
  destruct prev; cbn [app length]; rewrite IH; reflexivity.
Qed.

Lemma do_title_ascii_is_ascii (s : str) :
  is_ascii s -> forall prev data i, is_ascii (do_title ascii_case data i prev s).
Proof.
  induction 1 as [|c t Hc Ht IH]; intros prev data i; [constructor|].
  cbn [do_title to_lower to_title ascii_case].
  destruct prev; cbn [app]; constructor; try apply IH.
  - apply ascii_lower_ascii, Hc.
  - apply ascii_upper_ascii, Hc.
Qed.

(** X5. On ASCII text, with case tables exact there: the cleaned title
    has as many characters as the stripped raw title, is ASCII again, and
    cleaning it once more changes nothing. *)
Theorem clean_title_ascii_stable (U : UnicodeCase) (raw : str) :
  ascii_exact U -> is_ascii raw ->
  length (clean_title U raw) = length (strip raw)
  /\ is_ascii (clean_title U raw)
  /\ clean_title U (clean_title U raw) = clean_title U raw.
Proof.
  intros HU Hraw. rewrite (clean_title_ascii HU Hraw).
  assert (Hx : is_ascii (clean_title ascii_case raw)).
  { unfold clean_title, title. apply do_title_ascii_is_ascii, strip_ascii, Hraw. }
  rewrite (clean_title_ascii HU Hx).
  split; [|split; [exact Hx|]].
  - unfold clean_title, title. apply do_title_ascii_length.
  - unfold clean_title at 1.
    rewrite strip_id.
    + unfold clean_title, title. apply do_title_ascii_idem.
    + unfold clean_title. apply (title_leading ascii_case_sane), strip_leading.
    + unfold clean_title. apply (title_trailing ascii_case_sane), strip_trailing.
Qed.

Lemma clean_title_ascii_stable_witness :
  length (clean_title ascii_case (py "  wireless   mouse  "))
  = length (strip (py "  wireless   mouse  "))
  /\ is_ascii (clean_title ascii_case (py "  wireless   mouse  "))
  /\ clean_title ascii_case (clean_title ascii_case (py "  wireless   mouse  "))
     = clean_title ascii_case (py "  wireless   mouse  ").
Proof.
  apply (@clean_title_ascii_stable ascii_case (py "  wireless   mouse  ")
           ascii_case_exact).
  apply is_ascii_check. reflexivity.
Defined.

(** ** The prompt *)

Lemma split_at_first (x : char) (a a' b b' : str) :
  ~ In x a -> ~ In x a' -> a ++ x :: b = a' ++ x :: b' -> a = a' /\ b = b'.
Proof.
  revert a'. induction a as [|y a IH]; intros a' Ha Ha' E.
  - destruct a' as [|y' a']; cbn [app] in E.
    + injection E as E. split; [reflexivity | exact E].
    + injection E as E _. exfalso. apply Ha'. left. symmetry. exact E.
  - destruct a' as [|y' a']; cbn [app] in E.
    + injection E as E _. exfalso. apply Ha. left. exact E.
    + injection E as E1 E2. subst y'.
      destruct (IH a') as [-> ->]; [| |exact E2|split; reflexivity].
      * intros H. apply Ha. right. exact H.
      * intros H. apply Ha'. right. exact H.
Qed.

Lemma split_at_last (x : char) (a a' b b' : str) :
  ~ In x b -> ~ In x b' -> a ++ x :: b = a' ++ x :: b' -> a = a' /\ b = b'.
Proof.
  intros Hb Hb' E. apply (f_equal (@rev char)) in E.
  rewrite !rev_app_distr in E. cbn [rev] in E. rewrite <- !app_assoc in E.
  cbn [app] in E. apply split_at_first in E.
  - destruct E as [E1 E2]. split.
    + rewrite <- (rev_involutive a), <- (rev_involutive a'), E2. reflexivity.
    + rewrite <- (rev_involutive b), <- (rev_involutive b'), E1. reflexivity.
  - intros H. apply Hb, in_rev, H.
  - intros H. apply Hb', in_rev, H.
Qed.

Lemma build_prompt_injective (t d t' d' : str) :
  ~ In newline d -> ~ In newline d' ->
  build_prompt t d = build_prompt t' d' -> t = t' /\ d = d'.
Proof.
  intros Hd Hd' E. unfold build_prompt in E.
  do 11 (apply app_inv_head in E).
  rewrite !(app_assoc t), !(app_assoc t') in E.
  rewrite !app_assoc in E.
  do 4 (apply app_inv_tail in E).
  rewrite <- !app_assoc in E. unfold nl in E. cbn [app] in E.
  assert (Hlabel : forall x, ~ In newline x -> ~ In newline (py "Deal Description: " ++ x)).
  { intros x Hx H. apply in_app_iff in H. destruct H as [H|H]; [|exact (Hx H)].
    vm_compute in H. repeat (destruct H as [H|H]; [discriminate H|]). exact H. }
  apply split_at_last in E; [|apply Hlabel, Hd | apply Hlabel, Hd'].
  destruct E as [Et Ed]. apply app_inv_head in Ed. split; assumption.
Qed.

Lemma clean_desc_no_newline (raw : str) : ~ In newline (clean_desc raw).
Proof.
  intros H.
  assert (Hs : ws_are_spaces (clean_desc raw) = true).
  { unfold clean_desc. apply strip_spaces, sub_ws_spaces. }
  unfold ws_are_spaces in Hs. rewrite forallb_forall in Hs.
  specialize (Hs newline H). vm_compute in Hs. discriminate Hs.
Qed.

(** X6. The prompt determines the cleaned pair it was built from: two
    rows are sent the same prompt only if their cleaned titles are equal
    and their cleaned descriptions are equal.  (A cleaned description
    holds no line break, so the place where the description starts in the
    prompt cannot be mistaken.) *)
Theorem prompt_determines_row (U : UnicodeCase) (rt rd rt' rd' : cell) :
  prompt_of U rt rd = prompt_of U rt' rd' ->
  clean_title U (py_str rt) = clean_title U (py_str rt')
  /\ clean_desc (py_str rd) = clean_desc (py_str rd').
Proof.
  unfold prompt_of. apply build_prompt_injective; apply clean_desc_no_newline.
Qed.

Lemma prompt_determines_row_witness :
  clean_title ascii_case (py_str (Str (py "usb hub")))
  = clean_title ascii_case (py_str (Str (py "  USB HUB ")))
  /\ clean_desc (py_str NaN) = clean_desc (py_str (Str (py " nan"))).
Proof.
  apply (@prompt_determines_row ascii_case (Str (py "usb hub")) NaN
           (Str (py "  USB HUB ")) (Str (py " nan"))).
  reflexivity.
Defined.

(** ** The listing generator, besides the fallback *)

Lemma prompts_app (a b : log) : prompts (a ++ b) = prompts a ++ prompts b.
Proof.
  induction a as [|e a IH]; [reflexivity|].
  destruct e; cbn [app prompts]; rewrite IH; reflexivity.
Qed.

(** X7. On a row that has both cleaned cells, [generate_listing] returns
    a value and never raises, whatever the collaborators do, and it
    makes exactly one remote call, with the prompt built from the two
    cells: there is no second attempt. *)
Theorem generate_listing_one_call (W : World) (api_key : str) (r : row)
        (t d : cell) (st : log) :
  lookup (py "clean_title") r = Some t ->
  lookup (py "clean_desc") r = Some d ->
  (exists v, fst (generate_listing W api_key r st) = Ok v)
  /\ calls (snd (generate_listing W api_key r st)) = S (calls st)
  /\ prompts (snd (generate_listing W api_key r st))
     = prompts st ++ [build_prompt (py_str t) (py_str d)]
  /\ written (snd (generate_listing W api_key r st)) = written st.
Proof.
  intros Ht Hd. rewrite (generate_listing_run W api_key r st Ht Hd). cbn [fst snd].
  split; [eexists; reflexivity|]. split; [apply calls_chat|].
  split; [apply prompts_app|]. rewrite written_app. reflexivity.
Qed.

Lemma generate_listing_one_call_witness :
  (exists v, fst (generate_listing demo_world (py "sk-demo") mouse_row []) = Ok v)
  /\ calls (snd (generate_listing demo_world (py "sk-demo") mouse_row [])) = 1
  /\ prompts (snd (generate_listing demo_world (py "sk-demo") mouse_row []))
     = [] ++ [build_prompt (py "Wireless   Mouse") (py "Great for travel.")]
  /\ written (snd (generate_listing demo_world (py "sk-demo") mouse_row [])) = None.
Proof.
  apply (@generate_listing_one_call demo_world (py "sk-demo") mouse_row
           (Str (py "Wireless   Mouse")) (Str (py "Great for travel.")) []);
    reflexivity.
Defined.

(** X8. The two cells are read before the [try]: on a row without
    [clean_title], or with it but without [clean_desc], [generate_listing]
    raises [KeyError] for that name, and no remote call is made. *)
Theorem generate_listing_missing_cell (W : World) (api_key : str) (r : row) (st : log) :
  (lookup (py "clean_title") r = None ->
   generate_listing W api_key r st = (Raise (KeyError (py "clean_title")), st))
  /\ (lookup (py "clean_title") r <> None ->
      lookup (py "clean_desc") r = None ->
      generate_listing W api_key r st = (Raise (KeyError (py "clean_desc")), st)).
Proof.
  unfold generate_listing, bind, row_getitem. split.
  - intros ->. reflexivity.
  - intros Ht Hd. destruct (lookup (py "clean_title") r); [|contradiction].
    unfold ret at 1. rewrite Hd. reflexivity.
Qed.

(** ** The driver, besides the rows *)

Lemma prompts_chats (ps : list row) :
  prompts (map (fun r => EvChat (row_prompt r)) ps) = map row_prompt ps.
Proof. induction ps as [|p t IH]; cbn [map prompts]; [|rewrite IH]; reflexivity. Qed.

Lemma calls_chat_events (df : frame) :
  calls (chat_events df) = if axis_empty df then 0 else nrows df.
Proof.
  unfold chat_events. destruct (axis_empty df); [reflexivity|].
  rewrite calls_chats. apply rows_length.
Qed.

Lemma axis_empty_normalised (U : UnicodeCase) (df : frame) (rt rd : list cell) :
  axis_empty (normalised U df rt rd) = true -> nrows df = 0.
Proof.
  intros H. destruct (nrows df) as [|n] eqn:E; [reflexivity|].
  rewrite axis_nonempty in H by lia. discriminate H.
Qed.

(** The log of a run that got past the two column reads: the read, one
    call per row, and then at most the write and the notice. *)
Lemma main_log (W : World) (inp outp api_key : str) (df : frame) (rt rd : list cell) :
  csv_at W inp = Returns df ->
  lookup (py "RawTitle") (cols df) = Some rt ->
  lookup (py "RawDescription") (cols df) = Some rd ->
  exists tail,
    snd (main W inp outp api_key [])
    = (EvReadCsv inp :: chat_events (normalised (unicode W) df rt rd)) ++ tail
    /\ prompts tail = [] /\ calls tail = 0.
Proof.
  intros Hcsv Hrt Hrd. rewrite main_outcome. unfold outcome.
  rewrite Hcsv, Hrt, Hrd. cbv zeta.
  destruct (expanded _ _ _) as [results|];
    [|exists []; rewrite app_nil_r; repeat split].
  destruct (lookup (py "title") (cols results));
    [|exists []; rewrite app_nil_r; repeat split].
  destruct (lookup (py "html_description") (cols results));
    [|exists []; rewrite app_nil_r; repeat split].
  destruct (lookup (py "seo_description") (cols results));
    [|exists []; rewrite app_nil_r; repeat split].
  eexists. cbn [snd]. repeat split.
Qed.

(** The two ways a run ends: with the write and the notice as its last
    two events, or without any write. *)
Lemma main_cases (W : World) (inp outp api_key : str) :
  (exists st out,
      main W inp outp api_key []
      = (Ok tt, (EvReadCsv inp :: st)
                  ++ [EvWriteCsv outp out;
                      EvPrint (py "Saved formatted deals to " ++ outp)])
      /\ written st = None)
  \/ (exists st,
         snd (main W inp outp api_key []) = EvReadCsv inp :: st
         /\ fst (main W inp outp api_key []) <> Ok tt
         /\ written st = None).
Proof.
  rewrite main_outcome. unfold outcome.
  destruct (csv_at W inp) as [df|msg];
    [|right; exists []; repeat split; discriminate].
  destruct (lookup (py "RawTitle") (cols df)) as [rt|];
    [|right; exists []; repeat split; discriminate].
  destruct (lookup (py "RawDescription") (cols df)) as [rd|];
    [|right; exists []; repeat split; discriminate].
  cbv zeta.
  destruct (expanded _ _ _) as [results|];
    [|right; eexists; repeat split; [discriminate | apply written_chat_events]].
  destruct (lookup (py "title") (cols results));
    [|right; eexists; repeat split; [discriminate | apply written_chat_events]].
  destruct (lookup (py "html_description") (cols results));
    [|right; eexists; repeat split; [discriminate | apply written_chat_events]].
  destruct (lookup (py "seo_description") (cols results));
    [|right; eexists; repeat split; [discriminate | apply written_chat_events]].
  left. eexists. eexists. split; [reflexivity | apply written_chat_events].
Qed.

(** X9. When the input cannot be read, [main] ends with the error of
    [read_csv]; when the table lacks the column [RawTitle], or has it but
    lacks [RawDescription], [main] ends with [KeyError] for that column.
    In each case the read is the only thing that happened: no remote
    call, no write. *)
Theorem main_input_errors (W : World) (inp outp api_key : str) :
  (forall msg, csv_at W inp = Fails msg ->
               main W inp outp api_key [] = (Raise (Error msg), [EvReadCsv inp]))
  /\ (forall df, csv_at W inp = Returns df ->
                 lookup (py "RawTitle") (cols df) = None ->
                 main W inp outp api_key []
                 = (Raise (KeyError (py "RawTitle")), [EvReadCsv inp]))
  /\ (forall df, csv_at W inp = Returns df ->
                 lookup (py "RawTitle") (cols df) <> None ->
                 lookup (py "RawDescription") (cols df) = None ->
                 main W inp outp api_key []
                 = (Raise (KeyError (py "RawDescription")), [EvReadCsv inp])).
Proof.
  rewrite main_outcome. unfold outcome. repeat split.
  - intros msg ->. reflexivity.
  - intros df -> ->. reflexivity.
  - intros df -> Ht ->. destruct (lookup (py "RawTitle") (cols df)); [reflexivity|].
    contradiction.
Qed.


(** X11. Past the two column reads, [main] makes one remote call per
    row, in the order of the rows, each with the prompt of that row's
    cleaned title and description, whatever the replies are and however
    the run ends: no row is skipped after a failure and none is asked
    twice. *)
Theorem main_one_call_per_row (W : World) (inp outp api_key : str) (df : frame)
        (rt rd : list cell) :
  csv_at W inp = Returns df ->
  wf_frame df ->
  lookup (py "RawTitle") (cols df) = Some rt ->
  lookup (py "RawDescription") (cols df) = Some rd ->
  prompts (snd (main W inp outp api_key []))
  = map (fun i => prompt_of (unicode W) (nth i rt NaN) (nth i rd NaN))
        (seq 0 (nrows df))
  /\ calls (snd (main W inp outp api_key [])) = nrows df.
Proof.
  intros Hcsv Hwf Hrt Hrd.
  destruct (main_log W inp outp api_key Hcsv Hrt Hrd) as (tail & -> & Hp & Hc).
  rewrite prompts_app, calls_app, Hp, Hc, app_nil_r, Nat.add_0_r.
  change (calls (EvReadCsv inp :: ?l)) with (calls l). cbn [prompts].
  rewrite calls_chat_events. unfold chat_events.
  destruct (axis_empty (normalised (unicode W) df rt rd)) eqn:He.
  - apply axis_empty_normalised in He. rewrite He. split; reflexivity.
  - split; [|reflexivity]. rewrite prompts_chats. unfold rows.
    rewrite map_map, normalised_nrows. apply map_ext_in. intros i Hi.
    apply in_seq in Hi.
    destruct (normalised_row W api_key Hwf Hrt Hrd (i := i)) as (Ht & Hd & _); [lia|].
    unfold row_prompt. rewrite Ht, Hd. reflexivity.
Qed.

Lemma main_one_call_per_row_witness :
  prompts (snd (main demo_world (py "in.csv") (py "out.csv") (py "sk-demo") []))
  = map (fun i => prompt_of ascii_case
                    (nth i [Str (py "  wireless   mouse  "); Str (py "3d tv")] NaN)
                    (nth i [Str (py "Great   for   travel." ++ nl ++ nl ++ py "Compact.");
                            NaN] NaN))
        (seq 0 2)
  /\ calls (snd (main demo_world (py "in.csv") (py "out.csv") (py "sk-demo") [])) = 2.
Proof.
  apply (@main_one_call_per_row demo_world (py "in.csv") (py "out.csv") (py "sk-demo")
           two_deals
           [Str (py "  wireless   mouse  "); Str (py "3d tv")]
           [Str (py "Great   for   travel." ++ nl ++ nl ++ py "Compact."); NaN]
           eq_refl two_deals_wf eq_refl eq_refl).
Defined.

Lemma has_key_intro (k : str) (d : dict) (ds : list dict) (v : cell) :
  In d ds -> lookup k d = Some v -> has_key k ds = true.
Proof.
  intros Hin Hk. unfold has_key. apply existsb_exists.
  exists d. rewrite Hk. split; [exact Hin | reflexivity].
Qed.

Lemma as_dicts_total (vs : list pyvalue) :
  Forall (fun v => v <> NotDict) vs -> exists ds, as_dicts vs = Some ds.
Proof.
  induction 1 as [|v vs Hv Hvs [ds IH]]; cbn [as_dicts].
  - exists []. reflexivity.
  - destruct v as [d|]; [|contradiction]. rewrite IH. exists (d :: ds). reflexivity.
Qed.

Lemma listings_all_dicts (W : World) (api_key : str) (rs : list row) :
  (forall n p, exists exc,
      attempt_bind (openai_reply W api_key n p)
                   (fun content => json_loads W (strip content)) = Fails exc) ->
  Forall (fun r => lookup (py "clean_title") r <> None
                   /\ lookup (py "clean_desc") r <> None) rs ->
  forall n, Forall (fun v => v <> NotDict) (listings_from W api_key n rs).
Proof.
  intros Hfail. induction 1 as [|r rs [Ht Hd] Hrs IH]; intros n; cbn [listings_from].
  - constructor.
  - constructor; [|apply IH]. unfold row_listing.
    destruct (lookup (py "clean_title") r) as [t|]; [|contradiction].
    destruct (lookup (py "clean_desc") r) as [d|]; [|contradiction].
    unfold listing.
    destruct (Hfail n (build_prompt (py_str t) (py_str d))) as [exc ->]. discriminate.
Qed.

(** X12. With the collaborator out of reach (every attempt fails, at the
    call or at the parse), a table with rows is still processed to the
    end: [main] ends normally and writes a frame in which every row has
    its cleaned title as [Formatted Title], its cleaned description as
    [HTML Description] and the empty string as [SEO Description]. *)
Theorem main_survives_outage (W : World) (inp outp api_key : str) (df : frame)
        (rt rd : list cell) :
  csv_at W inp = Returns df ->
  wf_frame df ->
  0 < nrows df ->
  lookup (py "RawTitle") (cols df) = Some rt ->
  lookup (py "RawDescription") (cols df) = Some rd ->
  (forall n p, exists exc,
      attempt_bind (openai_reply W api_key n p)
                   (fun content => json_loads W (strip content)) = Fails exc) ->
  exists out,
    fst (main W inp outp api_key []) = Ok tt
    /\ written (snd (main W inp outp api_key [])) = Some out
    /\ nrows out = nrows df
    /\ forall i, i < nrows df ->
         lookup (py "Formatted Title") (row_at out i)
         = Some (clean_title_cell (unicode W) (nth i rt NaN))
         /\ lookup (py "HTML Description") (row_at out i)
            = Some (clean_desc_cell (nth i rd NaN))
         /\ lookup (py "SEO Description") (row_at out i) = Some (Str []).
Proof.
  intros Hcsv Hwf Hn Hrt Hrd Hfail.
  set (df2 := normalised (unicode W) df rt rd).
  destruct (as_dicts_total
              (listings_all_dicts W api_key Hfail
                 (normalised_rows_clean (unicode W) df rt rd) 0)) as [ds Hds].
  fold df2 in Hds.
  assert (Lds : length ds = nrows df2).
  { rewrite (as_dicts_length _ Hds), listings_from_length. apply rows_length. }
  assert (Hrow : forall i, i < nrows df -> exists exc,
               nth i ds [] = fallback (clean_title_cell (unicode W) (nth i rt NaN))
                                      (clean_desc_cell (nth i rd NaN)) exc).
  { intros i Hi.
    destruct (Hfail i (build_prompt
                         (py_str (clean_title_cell (unicode W) (nth i rt NaN)))
                         (py_str (clean_desc_cell (nth i rd NaN))))) as [exc Hexc].
    exists exc.
    assert (E : Dict (nth i ds [])
                = Dict (fallback (clean_title_cell (unicode W) (nth i rt NaN))
                                 (clean_desc_cell (nth i rd NaN)) exc));
      [|injection E; trivial].
    rewrite <- (as_dicts_nth _ Hds)
      by (rewrite listings_from_length, rows_length; exact Hi).
    rewrite listings_from_nth by (rewrite rows_length; exact Hi).
    rewrite rows_nth by exact Hi. cbn [Nat.add].
    destruct (normalised_row W api_key Hwf Hrt Hrd Hi) as (_ & _ & Hl).
    fold df2 in Hl. rewrite Hl. unfold listing. rewrite Hexc. reflexivity. }
  destruct (Hrow 0 Hn) as [exc0 H0].
  assert (Hin : In (nth 0 ds []) ds) by (apply nth_In; rewrite Lds; exact Hn).
  assert (K1 : has_key (py "title") ds = true).
  { eapply has_key_intro; [exact Hin | rewrite H0; reflexivity]. }
  assert (K2 : has_key (py "html_description") ds = true).
  { eapply has_key_intro; [exact Hin | rewrite H0; reflexivity]. }
  assert (K3 : has_key (py "seo_description") ds = true).
  { eapply has_key_intro; [exact Hin | rewrite H0; reflexivity]. }
  eexists.
  rewrite (main_completes W inp outp api_key Hcsv Hrt Hrd Hn Hds K1 K2 K3).
  cbn [fst snd]. fold df2.
  split; [reflexivity|]. split; [rewrite written_app; reflexivity|].
  split; [reflexivity|].
  intros i Hi. destruct (Hrow i Hi) as [exc Hexc].
  rewrite !lookup_row_at, merged_title, merged_html, merged_seo.
  rewrite !reindex_id by (rewrite dict_column_length; exact Lds).
  cbn [option_map]. rewrite !nth_dict_column, Hexc.
  repeat split.
Qed.

Lemma main_survives_outage_witness :
  exists out,
    fst (main (stub_world two_deals []) (py "in.csv") (py "out.csv") (py "sk-demo") [])
    = Ok tt
    /\ written (snd (main (stub_world two_deals []) (py "in.csv") (py "out.csv")
                          (py "sk-demo") []))
       = Some out
    /\ lookup (py "Formatted Title") (row_at out 1) = Some (Str (py "3D Tv"))
    /\ lookup (py "HTML Description") (row_at out 1) = Some (Str (py "nan"))
    /\ lookup (py "SEO Description") (row_at out 1) = Some (Str []).
Proof.
  destruct (@main_survives_outage (stub_world two_deals [])
              (py "in.csv") (py "out.csv") (py "sk-demo") two_deals
              [Str (py "  wireless   mouse  "); Str (py "3d tv")]
              [Str (py "Great   for   travel." ++ nl ++ nl ++ py "Compact."); NaN]
              eq_refl two_deals_wf (le_S _ _ (le_n 1)) eq_refl eq_refl)
    as (out & Hok & Hw & _ & Hrows).
  - intros n p. exists (py "Expecting value: line 1 column 1 (char 0)").
    cbn [openai_reply stub_world]. destruct n as [|[|n]]; reflexivity.
  - exists out. split; [exact Hok|]. split; [exact Hw|].
    exact (Hrows 1 (le_n 2)).
Defined.

(** *** The columns passed through *)

Lemma fold_add_key_extends (ks l : list str) :
  exists ext, fold_left add_key ks l = l ++ ext.
Proof.
  revert l. induction ks as [|k ks IH]; intros l; cbn [fold_left].
  - exists []. symmetry. apply app_nil_r.
  - destruct (IH (add_key l k)) as [ext E]. rewrite E. unfold add_key.
    destruct (in_dec str_eq_dec k l); [exists ext; reflexivity|].
    exists ([k] ++ ext). rewrite <- app_assoc. reflexivity.
Qed.

(** X13. Every frame [main] writes has the input's row count and all
    of the input's columns, in their places and before any new one; a
    column of the input keeps its cells unless it bears one of the five
    names the script assigns ([clean_title], [clean_desc] and the three
    output columns), in which case it is overwritten. *)
Theorem input_columns_pass_through (W : World) (inp outp api_key : str)
        (df out : frame) :
  csv_at W inp = Returns df ->
  wf_frame df ->
  written (snd (main W inp outp api_key [])) = Some out ->
  nrows out = nrows df
  /\ wf_frame out
  /\ firstn (length (columns df)) (columns out) = columns df
  /\ (forall k, ~ In k output_names -> lookup k (cols out) = lookup k (cols df))
  /\ (forall k, In k output_names -> lookup k (cols out) <> None).
Proof.
  intros Hcsv Hwf Hw.
  destruct (main_written _ _ _ _ Hw)
    as (df' & rt & rd & results & c1 & c2 & c3 & E & Hrt & Hrd & _ & _ & _ & _ & ->).
  rewrite Hcsv in E. injection E as <-.
  split; [reflexivity|]. split; [apply merged_wf, normalised_wf, Hwf|].
  split; [|split].
  - rewrite merged_columns, normalised_columns.
    destruct (fold_add_key_extends output_names (columns df)) as [ext Hext].
    unfold output_names in Hext. cbn [fold_left] in Hext. rewrite Hext.
    rewrite firstn_app, Nat.sub_diag, firstn_all. cbn [firstn]. apply app_nil_r.
  - intros k Hk. destruct (not_output_name Hk) as (K1 & K2 & K3 & K4 & K5).
    rewrite merged_other by assumption. apply normalised_other; assumption.
  - intros k Hk. unfold output_names in Hk. cbn [In] in Hk.
    destruct Hk as [<-|[<-|[<-|[<-|[<-|[]]]]]].
    + rewrite merged_other by names_differ.
      rewrite normalised_clean_title. discriminate.
    + rewrite merged_other by names_differ.
      rewrite normalised_clean_desc. discriminate.
    + rewrite merged_title. discriminate.
    + rewrite merged_html. discriminate.
    + rewrite merged_seo. discriminate.
Qed.

Lemma input_columns_pass_through_witness :
  exists out,
    written (snd (main demo_world (py "in.csv") (py "out.csv") (py "sk-demo") []))
    = Some out
    /\ nrows out = nrows two_deals
    /\ lookup (py "RawTitle") (cols out) = lookup (py "RawTitle") (cols two_deals).
Proof.
  destruct (written (snd (main demo_world (py "in.csv") (py "out.csv") (py "sk-demo") [])))
    as [out|] eqn:Hw; [|vm_compute in Hw; discriminate Hw].
  exists out. split; [reflexivity|].
  destruct (@input_columns_pass_through demo_world (py "in.csv") (py "out.csv")
              (py "sk-demo") two_deals out eq_refl two_deals_wf Hw)
    as (Hn & _ & _ & Hkeep & _).
  split; [exact Hn|]. apply Hkeep.
  unfold output_names. cbn [In].
  intros [H|[H|[H|[H|[H|[]]]]]]; vm_compute in H; discriminate H.
Defined.

(** ** The command line *)

(** X14. The process ends with the key-required [SystemExit] before doing
    anything exactly when [--api-key] is given empty, or is not given
    while [OPENAI_API_KEY] is unset or empty.  A non-empty [--api-key]
    is the key [main] runs with, whatever the environment holds (an empty
    [--api-key] is not replaced by the environment's key). *)
Theorem key_required_exactly (W : World) (args : Args) (env : option str) :
  (script W args env [] = (Raise (SystemExit key_required), [])
   <-> match opt_api_key args with
       | Some k => k = []
       | None => env = None \/ env = Some []
       end)
  /\ (forall k, opt_api_key args = Some k -> k <> [] ->
                script W args env [] = main W (input_csv args) (output_csv args) k []).
Proof.
  assert (Hmain : forall k,
             main W (input_csv args) (output_csv args) k []
             <> (Raise (SystemExit key_required), [])).
  { intros k E.
    destruct (main_cases W (input_csv args) (output_csv args) k)
      as [(st & out & E' & _) | (st & E' & _)].
    - rewrite E in E'. discriminate E'.
    - rewrite E in E'. discriminate E'. }
  unfold script. split.
  - destruct (opt_api_key args) as [[|c k]|].
    + split; reflexivity.
    + split; [intros E; exfalso; exact (Hmain _ E) | discriminate].
    + destruct env as [[|c k]|].
      * split; [right; reflexivity | reflexivity].
      * split; [intros E; exfalso; exact (Hmain _ E)|].
        intros [H|H]; discriminate H.
      * split; [left; reflexivity | reflexivity].
  - intros k -> Hk. destruct k as [|c k]; [contradiction | reflexivity].
Qed.

(** ** Row by row *)

(** The three output cells of row [i] in a written frame are the three
    members of the dict returned for row [i]. *)
Lemma written_row (W : World) (inp outp api_key : str) (df out : frame)
      (rt rd : list cell) (i : nat) :
  csv_at W inp = Returns df ->
  wf_frame df ->
  lookup (py "RawTitle") (cols df) = Some rt ->
  lookup (py "RawDescription") (cols df) = Some rd ->
  i < nrows df ->
  written (snd (main W inp outp api_key [])) = Some out ->
  exists d,
    listing W api_key i (clean_title_cell (unicode W) (nth i rt NaN))
            (clean_desc_cell (nth i rd NaN)) = Dict d
    /\ lookup (py "Formatted Title") (row_at out i) = Some (field (py "title") d)
    /\ lookup (py "HTML Description") (row_at out i)
       = Some (field (py "html_description") d)
    /\ lookup (py "SEO Description") (row_at out i)
       = Some (field (py "seo_description") d).
Proof.
  intros Hcsv Hwf Hrt Hrd Hi Hw.
  assert (Hn : 0 < nrows df) by lia.
  destruct (main_written_rows W inp outp api_key Hcsv Hrt Hrd Hn Hw) as (ds & Hds & ->).
  set (df2 := normalised (unicode W) df rt rd) in *.
  assert (Lds : length ds = nrows df2).
  { rewrite (as_dicts_length _ Hds), listings_from_length. apply rows_length. }
  exists (nth i ds []). split.
  - rewrite <- (as_dicts_nth _ Hds)
      by (rewrite listings_from_length, rows_length; exact Hi).
    rewrite listings_from_nth by (rewrite rows_length; exact Hi).
    rewrite rows_nth by exact Hi. cbn [Nat.add].
    destruct (normalised_row W api_key Hwf Hrt Hrd Hi) as (_ & _ & Hl).
    fold df2 in Hl. rewrite Hl. reflexivity.
  - rewrite !lookup_row_at, merged_title, merged_html, merged_seo.
    rewrite !reindex_id by (rewrite dict_column_length; exact Lds).
    cbn [option_map]. rewrite !nth_dict_column. repeat split.
Qed.

(** X15. In every frame [main] writes, a row whose reply parsed to a dict
    is served from that dict key by key: under each of the three keys, a
    string member is copied to the column of that key, and a key the
    reply omits leaves [NaN] in that column; the fallback is not used for
    a reply that parsed, and nothing is borrowed from another row. *)
Theorem omitted_key_gives_nan (W : World) (inp outp api_key : str)
        (df out : frame) (rt rd : list cell) (i : nat) (content : str) (d : dict) :
  csv_at W inp = Returns df ->
  wf_frame df ->
  lookup (py "RawTitle") (cols df) = Some rt ->
  lookup (py "RawDescription") (cols df) = Some rd ->
  i < nrows df ->
  openai_reply W api_key i (prompt_of (unicode W) (nth i rt NaN) (nth i rd NaN))
  = Returns content ->
  json_loads W (strip content) = Returns (Dict d) ->
  written (snd (main W inp outp api_key [])) = Some out ->
  forall k col,
    In (k, col) [ (py "title", py "Formatted Title");
                  (py "html_description", py "HTML Description");
                  (py "seo_description", py "SEO Description") ] ->
    (lookup k d = None -> lookup col (row_at out i) = Some NaN)
    /\ (forall s, lookup k d = Some (Str s) ->
                  lookup col (row_at out i) = Some (Str s)).
Proof.
  intros Hcsv Hwf Hrt Hrd Hi Hreply Hjson Hw k col Hk.
  destruct (written_row W inp outp api_key Hcsv Hwf Hrt Hrd Hi Hw)
    as (d' & Hd & Ht & Hh & Hs).
  assert (E : d' = d).
  { unfold listing, clean_title_cell, clean_desc_cell in Hd. cbn [py_str] in Hd.
    unfold prompt_of in Hreply. rewrite Hreply in Hd. cbn [attempt_bind] in Hd.
    rewrite Hjson in Hd. injection Hd as Hd. symmetry. exact Hd. }
  subst d'. unfold field in Ht, Hh, Hs. cbn [In] in Hk.
  destruct Hk as [Hk|[Hk|[Hk|[]]]]; injection Hk as <- <-.
  - rewrite Ht. split; [intros -> | intros s ->]; reflexivity.
  - rewrite Hh. split; [intros -> | intros s ->]; reflexivity.
  - rewrite Hs. split; [intros -> | intros s ->]; reflexivity.
Qed.

Lemma omitted_key_gives_nan_witness :
  exists out,
    written (snd (main empty_object_first_world (py "in.csv") (py "out.csv")
                       (py "sk-demo") []))
    = Some out
    /\ lookup (py "Formatted Title") (row_at out 0) = Some NaN
    /\ lookup (py "SEO Description") (row_at out 0) = Some NaN.
Proof.
  destruct (written (snd (main empty_object_first_world (py "in.csv") (py "out.csv")
                               (py "sk-demo") [])))
    as [out|] eqn:Hw; [|vm_compute in Hw; discriminate Hw].
  exists out. split; [reflexivity|].
  pose proof (@omitted_key_gives_nan empty_object_first_world
                (py "in.csv") (py "out.csv") (py "sk-demo") two_deals out
                [Str (py "  wireless   mouse  "); Str (py "3d tv")]
                [Str (py "Great   for   travel." ++ nl ++ nl ++ py "Compact."); NaN]
                0 (py "{}") [] eq_refl two_deals_wf eq_refl eq_refl
                (le_S _ _ (le_n 1)) eq_refl eq_refl Hw) as H.
  split.
  - apply (H (py "title") (py "Formatted Title")); [left; reflexivity | reflexivity].
  - apply (H (py "seo_description") (py "SEO Description"));
      [right; right; left; reflexivity | reflexivity].
Defined.

(** X16. In every frame [main] writes, a row whose generation failed (the
    call raised, or its reply was not JSON) has its cleaned title as
    [Formatted Title], its cleaned description as [HTML Description] and
    the empty string as [SEO Description]; the text of the exception is
    in none of them. *)
Theorem failed_row_gets_fallback (W : World) (inp outp api_key : str)
        (df out : frame) (rt rd : list cell) (i : nat) (exc : str) :
  csv_at W inp = Returns df ->
  wf_frame df ->
  lookup (py "RawTitle") (cols df) = Some rt ->
  lookup (py "RawDescription") (cols df) = Some rd ->
  i < nrows df ->
  attempt_bind
    (openai_reply W api_key i (prompt_of (unicode W) (nth i rt NaN) (nth i rd NaN)))
    (fun content => json_loads W (strip content)) = Fails exc ->
  written (snd (main W inp outp api_key [])) = Some out ->
  lookup (py "Formatted Title") (row_at out i)
  = Some (Str (clean_title (unicode W) (py_str (nth i rt NaN))))
  /\ lookup (py "HTML Description") (row_at out i)
     = Some (Str (clean_desc (py_str (nth i rd NaN))))
  /\ lookup (py "SEO Description") (row_at out i) = Some (Str []).
Proof.
  intros Hcsv Hwf Hrt Hrd Hi Hfail Hw.
  destruct (written_row W inp outp api_key Hcsv Hwf Hrt Hrd Hi Hw)
    as (d & Hd & -> & -> & ->).
  unfold listing in Hd. unfold prompt_of in Hfail.
  unfold clean_title_cell, clean_desc_cell in Hd. cbn [py_str] in Hd.
  rewrite Hfail in Hd. injection Hd as <-. repeat split.
Qed.

Lemma failed_row_gets_fallback_witness :
  exists out,
    written (snd (main demo_world (py "in.csv") (py "out.csv") (py "sk-demo") []))
    = Some out
    /\ lookup (py "Formatted Title") (row_at out 1) = Some (Str (py "3D Tv"))
    /\ lookup (py "HTML Description") (row_at out 1) = Some (Str (py "nan"))
    /\ lookup (py "SEO Description") (row_at out 1) = Some (Str []).
Proof.
  destruct (written (snd (main demo_world (py "in.csv") (py "out.csv") (py "sk-demo") [])))
    as [out|] eqn:Hw; [|vm_compute in Hw; discriminate Hw].
  exists out. split; [reflexivity|].
  apply (@failed_row_gets_fallback demo_world (py "in.csv") (py "out.csv")
           (py "sk-demo") two_deals out
           [Str (py "  wireless   mouse  "); Str (py "3d tv")]
           [Str (py "Great   for   travel." ++ nl ++ nl ++ py "Compact."); NaN]
           1 (py "Connection error.") eq_refl two_deals_wf eq_refl eq_refl (le_n 2)
           eq_refl Hw).
Defined.
